(** * fix_log_parser: the line decoder and the column assembler of [main.py]

    A shallow embedding of [extract_preamble_details], [parse_message],
    [process_file] and the column computation of [save_to_excel], together
    with the Python string and dict primitives they call, and the properties
    of the decoder and the assembler stated against it.

    Conventions.
    - A Python [str] is a [string]; its characters are the code points
      below 256.
    - A raised exception is the [Raise] case of [Py.result].
    - A [dict] is an association list in insertion order with unique keys:
      assigning to a key that is present replaces the value where it stands,
      assigning to a new key appends the binding. *)

From Stdlib Require Import String Ascii List ZArith Bool Lia.
Import ListNotations.
Open Scope list_scope.
Open Scope string_scope.

(** ** Python primitives *)

Module Py.

Inductive exn : Type :=
| ValueError
| KeyError (key : string).

Inductive result (A : Type) : Type :=
| Ok (a : A)
| Raise (e : exn).

Arguments Ok {A} a.
Arguments Raise {A} e.

Definition bind {A B : Type} (m : result A) (k : A -> result B) : result B :=
  match m with
  | Ok a => k a
  | Raise e => Raise e
  end.

(** [c.isspace()] for a code point below 256. *)
Definition isspace (c : ascii) : bool :=
  let n := nat_of_ascii c in
  (((9 <=? n) && (n <=? 13)) || ((28 <=? n) && (n <=? 32))
   || (n =? 133) || (n =? 160))%nat.

Fixpoint lstrip (s : string) : string :=
  match s with
  | EmptyString => EmptyString
  | String c s' => if isspace c then lstrip s' else s
  end.

Fixpoint rstrip (s : string) : string :=
  match s with
  | EmptyString => EmptyString
  | String c s' =>
      match rstrip s' with
      | EmptyString => if isspace c then EmptyString else String c EmptyString
      | String d r => String c (String d r)
      end
  end.

(** [s.strip()] *)
Definition strip (s : string) : string := rstrip (lstrip s).

Fixpoint take (n : nat) (s : string) : string :=
  match n, s with
  | S n', String c s' => String c (take n' s')
  | _, _ => EmptyString
  end.

Fixpoint drop (n : nat) (s : string) : string :=
  match n, s with
  | S n', String _ s' => drop n' s'
  | _, _ => s
  end.

(** The bound of a slice: a negative index counts from the end, and the
    result is clamped to [0 .. len]. *)
Definition clamp (len i : Z) : Z :=
  if (i <? 0)%Z then Z.max 0 (i + len) else Z.min i len.

(** [s[:e]] *)
Definition slice_to (s : string) (e : Z) : string :=
  take (Z.to_nat (clamp (Z.of_nat (String.length s)) e)) s.

(** [s[b:]] *)
Definition slice_from (s : string) (b : Z) : string :=
  drop (Z.to_nat (clamp (Z.of_nat (String.length s)) b)) s.

(** The lowest index at which [sub] starts in [s]. *)
Fixpoint index_of (sub s : string) : option nat :=
  if prefix sub s then Some 0
  else match s with
       | EmptyString => None
       | String _ s' => option_map S (index_of sub s')
       end.

(** [s.find(sub, start)]: the lowest index at or after [start] at which
    [sub] starts, [-1] when there is none. *)
Definition find (s sub : string) (start : Z) : Z :=
  let n := Z.of_nat (String.length s) in
  let b := if (start <? 0)%Z then Z.max 0 (start + n) else start in
  if (n <? b)%Z then (-1)%Z
  else match index_of sub (drop (Z.to_nat b) s) with
       | Some i => (b + Z.of_nat i)%Z
       | None => (-1)%Z
       end.

(** [sub in s] *)
Definition str_in (sub s : string) : bool :=
  match index_of sub s with
  | Some _ => true
  | None => false
  end.

(** [s.split(sep, 1)] for a non-empty [sep]: cut at the first occurrence. *)
Definition split_once (s sep : string) : list string :=
  match index_of sep s with
  | Some i => [take i s; drop (i + String.length sep) s]
  | None => [s]
  end.

(** [s.split(sep)] for a non-empty [sep]: cut at every occurrence, scanning
    from the left; [skip] counts the characters of a matched separator that
    are still to be passed over and [cur] is the part read so far. *)
Fixpoint split_go (sep s : string) (skip : nat) (cur : string) : list string :=
  match s with
  | EmptyString => [cur]
  | String a s' =>
      match skip with
      | S k => split_go sep s' k cur
      | O =>
          if prefix sep s
          then cur :: split_go sep s' (String.length sep - 1) EmptyString
          else split_go sep s' 0 (cur ++ String a EmptyString)
      end
  end.

Definition split (s sep : string) : list string := split_go sep s 0 EmptyString.

(** [a, b = l]: unpacking into two targets. *)
Definition unpack2 (l : list string) : result (string * string) :=
  match l with
  | [a; b] => Ok (a, b)
  | _ => Raise ValueError
  end.

(** [x in l] for a list of strings. *)
Fixpoint mem (x : string) (l : list string) : bool :=
  match l with
  | [] => false
  | y :: l' => (x =? y) || mem x l'
  end.

(** [seen.append(x)] unless [x] is already there: how a key enters a dict and
    how a column name enters an index of unique labels. *)
Definition uniq_add (seen : list string) (x : string) : list string :=
  if mem x seen then seen else (seen ++ [x])%list.

Section Dict.
Context {V : Type}.

(** [d.get(k)] *)
Fixpoint get (d : list (string * V)) (k : string) : option V :=
  match d with
  | [] => None
  | (k', v) :: d' => if k =? k' then Some v else get d' k
  end.

(** [d[k] = v] *)
Fixpoint set (d : list (string * V)) (k : string) (v : V) : list (string * V) :=
  match d with
  | [] => [(k, v)]
  | (k', v') :: d' => if k =? k' then (k', v) :: d' else (k', v') :: set d' k v
  end.

(** [k in d] *)
Definition has_key (d : list (string * V)) (k : string) : bool :=
  match get d k with
  | Some _ => true
  | None => false
  end.

(** [d[k]] *)
Definition subscript (d : list (string * V)) (k : string) : result V :=
  match get d k with
  | Some v => Ok v
  | None => Raise (KeyError k)
  end.

(** [list(d)]: the keys in insertion order. *)
Definition keys (d : list (string * V)) : list string := map fst d.
End Dict.

(** [for x in l: st = body(st, x)], stopping at the first exception. *)
Fixpoint for_each {S A : Type} (l : list A) (body : S -> A -> result S) (st : S)
  : result S :=
  match l with
  | [] => Ok st
  | x :: l' =>
      match body st x with
      | Ok st' => for_each l' body st'
      | Raise e => Raise e
      end
  end.

(** [bool(s)] for a string. *)
Definition truthy (s : string) : bool := negb (s =? "").

End Py.

Import Py.

Notation "x <- m ;; k" := (bind m (fun x => k))
  (at level 61, m at next level, right associativity).
Notation "' p <- m ;; k" := (bind m (fun x => let p := x in k))
  (at level 61, p pattern, m at next level, right associativity).

(** ** extract_preamble_details *)

Definition extract_preamble_details (line : string) : result (string * string) :=
  '(preamble, _) <- unpack2 (split_once line "]: ") ;;
  let tid_marker := find preamble "(TID=" 0 in
  let tid :=
    if negb (tid_marker =? -1)%Z then
      let tid_end := (find preamble ")" tid_marker + 1)%Z in
      strip (slice_to preamble tid_end)
    else "Unknown TID" in
  let order_type_marker := find preamble "| " 0 in
  let order_type :=
    if negb (order_type_marker =? -1)%Z then
      strip (slice_from preamble (order_type_marker + 2))
    else "Unknown Order Type" in
  Ok (tid, order_type).

(** ** The records and the field schema *)

(** What a key of a decoded record can hold: a field value, the list of the
    values of a repeated tag, or a nested mapping. *)
Inductive value : Type :=
| VStr (s : string)
| VList (l : list string)
| VDict (d : list (string * string)).

Definition dict : Type := list (string * value).

Definition columns_mapping : list (string * string) :=
  [ ("TID", "TID");
    ("Order Type", "Order Type");
    ("8", "8 BeginString");
    ("9", "9 BodyLength");
    ("35", "35 MsgType");
    ("34", "34 MsgSeqNum");
    ("49", "49 SenderCompID");
    ("56", "56 TargetCompID");
    ("57", "57 TargetSubID");
    ("52", "52 SendingTime");
    ("11", "11 ClOrdID");
    ("17", "17 ExecID");
    ("37", "37 OrderID");
    ("198", "198 SecondaryOrderId");
    ("150", "150 ExecType");
    ("453", "453 NoPartyIDs");
    ("448", "448 PartyID");
    ("447", "447 PartyIDSource");
    ("452", "452 PartyRole");
    ("55", "55 Symbol");
    ("48", "48 SecurityID");
    ("22", "22 SecurityIDSource");
    ("762", "762 SecuritySubType");
    ("1", "1 Account");
    ("14", "14 CumQty");
    ("31", "31 LastPx");
    ("32", "32 LastQty");
    ("38", "38 OrderQty");
    ("110", "110 MinQty");
    ("39", "39 OrdStatus");
    ("40", "40 OrdType");
    ("44", "44 Price");
    ("847", "847 TargetStrategy");
    ("54", "54 Side");
    ("59", "59 TimeInForce");
    ("60", "60 TransactTime");
    ("75", "75 TradeDate");
    ("64", "64 SettlDate");
    ("151", "151 LeavesQty");
    ("880", "880 TrdMatchID");
    ("1891", "1891 TrdMatchSubID");
    ("1057", "1057 AggressorIndicator");
    ("381", "381 GrossTradeAmt");
    ("797", "797 CopyMsgIndicator");
    ("10", "10 CheckSum") ].

(** ** parse_message *)

(** The variables the loop over the body parts updates. *)
Record loop_state : Type := LoopState {
  data : dict;
  partyIDs : list string;
  partyIDSources : list string;
  partyRoles : list string
}.

Definition set_data (st : loop_state) (k : string) (v : value) : loop_state :=
  LoopState (set (data st) k v) (partyIDs st) (partyIDSources st) (partyRoles st).

(** One iteration of [for part in message_str.split('|')]. *)
Definition loop_body (st : loop_state) (part : string) : result loop_state :=
  if negb (str_in "=" part) then Ok st
  else
    '(key, val) <- unpack2 (split_once part "=") ;;
    if has_key columns_mapping key then
      if mem key ["448"; "447"; "452"] then
        if key =? "448" then
          Ok (LoopState (data st) (partyIDs st ++ [val])%list
                        (partyIDSources st) (partyRoles st))
        else if key =? "447" then
          Ok (LoopState (data st) (partyIDs st)
                        (partyIDSources st ++ [val])%list (partyRoles st))
        else if key =? "452" then
          Ok (LoopState (data st) (partyIDs st)
                        (partyIDSources st) (partyRoles st ++ [val])%list)
        else Ok st
      else
        name <- subscript columns_mapping key ;;
        Ok (set_data st name (VStr val))
    else
      Ok (set_data st ("Unknown Tag " ++ key) (VStr val)).

(** The state before the loop: [data] with its first three keys, and the
    three empty lists. *)
Definition loop_init (tid order_type : string) : loop_state :=
  let data := [("Unknown Tags", VDict [])] in
  let data := set data "TID" (VStr tid) in
  let data := set data "Order Type" (VStr order_type) in
  LoopState data [] [] [].

(** The statements after the loop. *)
Definition attach_groups (st : loop_state) : dict :=
  match partyIDs st with
  | [] => data st
  | _ :: _ =>
      let data := set (data st) "448 PartyID" (VList (partyIDs st)) in
      let data := set data "447 PartyIDSource" (VList (partyIDSources st)) in
      set data "452 PartyRole" (VList (partyRoles st))
  end.

Definition parse_message (line : string) : result dict :=
  '(tid, order_type) <- extract_preamble_details line ;;
  '(_, message_str) <- unpack2 (split_once line "]: ") ;;
  st <- for_each (split message_str "|") loop_body (loop_init tid order_type) ;;
  Ok (attach_groups st).

(** ** process_file *)

(** [[parse_message(line) for line in file if line.strip()]], over the lines
    the file yields. *)
Fixpoint process_file (file : list string) : result (list dict) :=
  match file with
  | [] => Ok []
  | line :: rest =>
      if truthy (strip line) then
        msg <- parse_message line ;;
        msgs <- process_file rest ;;
        Ok (msg :: msgs)
      else process_file rest
  end.

(** ** save_to_excel: the columns and the rows handed to the writer *)

(** [pd.DataFrame(messages).columns]: for a list of dicts, the keys of the
    records in order of first appearance. *)
Definition DataFrame_columns (messages : list dict) : list string :=
  fold_left (fun seen msg => fold_left uniq_add (keys msg) seen) messages [].

(** [[f(x) for x in l]] where [f] can raise. *)
Fixpoint comprehension {A B : Type} (f : A -> result B) (l : list A)
  : result (list B) :=
  match l with
  | [] => Ok []
  | x :: l' => y <- f x ;; ys <- comprehension f l' ;; Ok (y :: ys)
  end.

Definition ordered_columns : result (list string) :=
  rest <- comprehension (subscript columns_mapping)
            (filter (fun tag => negb (mem tag ["TID"; "Order Type"]))
                    (keys columns_mapping)) ;;
  Ok (["TID"; "Order Type"] ++ rest)%list.

Definition extra_columns (messages : list dict) (ordered : list string)
  : list string :=
  filter (fun col => negb (mem col ordered)) (DataFrame_columns messages).

Definition final_columns_order (messages : list dict) : result (list string) :=
  ordered <- ordered_columns ;;
  Ok (ordered ++ extra_columns messages ordered)%list.

(** A cell of the reindexed frame: the value the record holds under the
    column name, [None] (a missing value) when it has none. *)
Definition cell (msg : dict) (col : string) : option value := get msg col.

(** The frame [df.reindex(columns=final_columns_order)] written to the sheet:
    its header and one row of cells per record. *)
Definition save_to_excel (messages : list dict)
  : result (list string * list (list (option value))) :=
  cols <- final_columns_order messages ;;
  Ok (cols, map (fun msg => map (cell msg) cols) messages).

(** ** Vocabulary of the specification *)

(** [sub] occurs in [s] at index [i]. *)
Definition occurs_at (sub s : string) (i : nat) : Prop :=
  exists a b, s = a ++ sub ++ b /\ String.length a = i.

Definition contains (sub s : string) : Prop :=
  exists i, occurs_at sub s i.

(** [i] is the index of the first occurrence of [sub] in [s] at or after
    index [m]. *)
Definition first_from (sub s : string) (m i : nat) : Prop :=
  m <= i /\ occurs_at sub s i /\
  forall j, m <= j -> j < i -> ~ occurs_at sub s j.

Definition first_at (sub s : string) (i : nat) : Prop := first_from sub s 0 i.

Definition separator : string := "]: ".

(** [line] is [pre], the first separator, then [body]. *)
Definition splits_as (line pre body : string) : Prop :=
  line = pre ++ separator ++ body /\
  first_at separator line (String.length pre).

Fixpoint blank (s : string) : bool :=
  match s with
  | EmptyString => true
  | String c s' => isspace c && blank s'
  end.

Definition starts_nonspace (t : string) : Prop :=
  forall c t', t = String c t' -> isspace c = false.

Definition ends_nonspace (t : string) : Prop :=
  forall t' c, t = t' ++ String c EmptyString -> isspace c = false.

(** [t] is [s] without its leading and trailing whitespace. *)
Definition trimmed_of (s t : string) : Prop :=
  exists w1 w2, s = w1 ++ t ++ w2 /\ blank w1 = true /\ blank w2 = true /\
                starts_nonspace t /\ ends_nonspace t.

(** The tag code and the value of a body part: the text before and after its
    first ['='], when it has one. *)
Definition field_of (part : string) : option (string * string) :=
  match index_of "=" part with
  | Some i => Some (take i part, drop (i + 1) part)
  | None => None
  end.

(** The fields of a body, part by part. *)
Definition fields_of (body : string) : list (string * string) :=
  flat_map (fun part => match field_of part with
                        | Some kv => [kv]
                        | None => []
                        end) (split body "|").

(** The values the body gives to tag [code], in the order of the body. *)
Definition values_of (code body : string) : list string :=
  map snd (filter (fun kv => fst kv =? code) (fields_of body)).

(** The tag codes of the body that the schema does not know, in the order of
    the body, with repetitions. *)
Definition unknown_codes (body : string) : list string :=
  map fst (filter (fun kv => negb (has_key columns_mapping (fst kv)))
             (fields_of body)).

(** The elements of [l] in order of first appearance. *)
Definition first_seen (l : list string) : list string :=
  fold_left uniq_add l [].

Definition unknown_column (code : string) : string := "Unknown Tag " ++ code.

(** The display names of the schema, in declared order. *)
Definition schema_names : list string := map snd columns_mapping.

(** ** The loop of [parse_message] as a fold over the fields *)

(** What one iteration does with a part that has a ['=']. *)
Definition apply_field (st : loop_state) (kv : string * string) : loop_state :=
  let (key, val) := kv in
  match get columns_mapping key with
  | Some name =>
      if key =? "448" then
        LoopState (data st) (partyIDs st ++ [val])%list
                  (partyIDSources st) (partyRoles st)
      else if key =? "447" then
        LoopState (data st) (partyIDs st)
                  (partyIDSources st ++ [val])%list (partyRoles st)
      else if key =? "452" then
        LoopState (data st) (partyIDs st)
                  (partyIDSources st) (partyRoles st ++ [val])%list
      else set_data st name (VStr val)
  | None => set_data st (unknown_column key) (VStr val)
  end.

(** The key of [data] a field is stored under, if any. *)
Definition written_key (kv : string * string) : list string :=
  match get columns_mapping (fst kv) with
  | Some name => if mem (fst kv) ["448"; "447"; "452"] then [] else [name]
  | None => [unknown_column (fst kv)]
  end.

Definition group_names : list string :=
  ["448 PartyID"; "447 PartyIDSource"; "452 PartyRole"].

(** Whether a column name is outside the canonical columns. *)
Definition is_extra (col : string) : bool := negb (mem col schema_names).

Fixpoint nodupb (l : list string) : bool :=
  match l with
  | [] => true
  | x :: l' => negb (mem x l') && nodupb l'
  end.

(** ** Statements that the program is compared with *)

(** The transaction id is the raw prefix of the preamble through the first
    [')'] at or after the marker, or the sentinel without a marker. *)
Definition tid_is_raw_prefix : Prop :=
  forall line pre body,
    splits_as line pre body ->
    (forall m e a b,
        first_at "(TID=" pre m -> first_from ")" pre m e ->
        pre = a ++ ")" ++ b -> String.length a = e ->
        exists order_type,
          extract_preamble_details line = Ok (a ++ ")", order_type)) /\
    (~ contains "(TID=" pre ->
     exists order_type,
       extract_preamble_details line = Ok ("Unknown TID", order_type)).

(** A batch with a line that lacks the separator still yields the records of
    the lines that have it. *)
Definition batch_partial_success : Prop :=
  forall file,
    (exists l, In l file /\ ~ contains separator l) ->
    (exists l, In l file /\ contains separator l) ->
    exists msgs,
      process_file file = Ok msgs /\
      forall l, In l file -> contains separator l ->
                exists msg, parse_message l = Ok msg /\ In msg msgs.

(** The record holds the three sequences of the repeating group under their
    display names. *)
Definition group_attached (body : string) (msg : dict) : Prop :=
  get msg "448 PartyID" = Some (VList (values_of "448" body)) /\
  get msg "447 PartyIDSource" = Some (VList (values_of "447" body)) /\
  get msg "452 PartyRole" = Some (VList (values_of "452" body)).

Definition group_absent (msg : dict) : Prop :=
  get msg "448 PartyID" = None /\
  get msg "447 PartyIDSource" = None /\
  get msg "452 PartyRole" = None.

(** The group is attached as soon as one of the three sequences is not
    empty, and left out when all three are. *)
Definition group_attached_if_any : Prop :=
  forall line pre body,
    splits_as line pre body ->
    exists msg,
      parse_message line = Ok msg /\
      ((values_of "448" body <> [] \/ values_of "447" body <> [] \/
        values_of "452" body <> []) -> group_attached body msg) /\
      ((values_of "448" body = [] /\ values_of "447" body = [] /\
        values_of "452" body = []) -> group_absent msg).

(** [msgs] are the records of [lines], whose bodies are [bodies]. *)
Definition decoded (lines bodies : list string) (msgs : list dict) : Prop :=
  Forall2 (fun line body => exists pre, splits_as line pre body) lines bodies /\
  Forall2 (fun line msg => parse_message line = Ok msg) lines msgs.

(** The columns are the canonical ones, then one per unknown tag code in
    order of first appearance, and nothing else. *)
Definition columns_schema_then_unknown : Prop :=
  forall lines bodies msgs,
    decoded lines bodies msgs ->
    final_columns_order msgs
    = Ok (schema_names
          ++ map unknown_column (first_seen (flat_map unknown_codes bodies)))%list.

(** The line terminator the file iterator leaves at the end of a line. *)
Definition nl : string := String "010" EmptyString.

(** ** Bodies written from their fields *)

(** The part [code=value] of a field. *)
Definition encode_field (kv : string * string) : string :=
  fst kv ++ "=" ++ snd kv.

(** The body whose parts are the given fields, joined with ['|']. *)
Definition encode_body (fields : list (string * string)) : string :=
  String.concat "|" (map encode_field fields).

(** What a single-valued key holds after the values [vs] were assigned to it
    in turn: nothing without a value, the last one otherwise. *)
Definition last_value (vs : list string) : option value :=
  match vs with
  | [] => None
  | v :: vs' => Some (VStr (last vs' v))
  end.

(** A field a body can be written from and read back: no ['='] or ['|'] in
    the code, no ['|'] in the value. *)
Definition plain_field (kv : string * string) : Prop :=
  ~ contains "=" (fst kv) /\ ~ contains "|" (fst kv) /\ ~ contains "|" (snd kv).

(** ** Examples *)

Example extract_session :
  extract_preamble_details "Session(TID=XYZ123) | NewOrder]: 35=D|55=AAPL"
  = Ok ("Session(TID=XYZ123)", "NewOrder").
Proof. reflexivity. Qed.

Example split_body :
  split "35=D|55=AAPL||x" "|" = ["35=D"; "55=AAPL"; ""; "x"].
Proof. reflexivity. Qed.

Example parse_session :
  parse_message "Session(TID=XYZ123) | NewOrder]: 35=D|55=AAPL|9999=z|448=P"
  = Ok [ ("Unknown Tags", VDict []);
         ("TID", VStr "Session(TID=XYZ123)");
         ("Order Type", VStr "NewOrder");
         ("35 MsgType", VStr "D");
         ("55 Symbol", VStr "AAPL");
         ("Unknown Tag 9999", VStr "z");
         ("448 PartyID", VList ["P"]);
         ("447 PartyIDSource", VList []);
         ("452 PartyRole", VList []) ].
Proof. reflexivity. Qed.

(** ** Strings: prefixes, slices and occurrences *)

Lemma append_empty_r (s : string) : s ++ "" = s.
Proof. induction s as [|c s IH]; simpl; [reflexivity | now rewrite IH]. Qed.

Lemma append_assoc (a b c : string) : (a ++ b) ++ c = a ++ (b ++ c).
Proof. induction a as [|x a IH]; simpl; [reflexivity | now rewrite IH]. Qed.

Lemma length_append (a b : string) :
  String.length (a ++ b) = String.length a + String.length b.
Proof. induction a as [|x a IH]; simpl; [reflexivity | now rewrite IH]. Qed.

Lemma append_inv_l (a b c : string) : a ++ b = a ++ c -> b = c.
Proof.
  induction a as [|x a IH]; simpl; intros H; [exact H|].
  injection H as H. now apply IH.
Qed.

Lemma append_eq_length (a a' b b' : string) :
  a ++ b = a' ++ b' -> String.length a = String.length a' -> a = a' /\ b = b'.
Proof.
  revert a'. induction a as [|x a IH]; intros [|y a']; simpl; intros H L;
    try discriminate.
  - now split.
  - injection H as -> H. injection L as L.
    destruct (IH _ H L) as [-> ->]. now split.
Qed.

Lemma prefix_iff (p s : string) :
  prefix p s = true <-> exists t, s = p ++ t.
Proof.
  revert s. induction p as [|a p IH]; intros s.
  - destruct s; simpl; split; eauto.
  - destruct s as [|b s]; simpl.
    + split; [discriminate | intros [t H]; discriminate].
    + destruct (ascii_dec a b) as [->|N].
      * split.
        -- intros H. apply IH in H. destruct H as [t ->]. now exists t.
        -- intros [t H]. apply IH. exists t. now injection H.
      * split; [discriminate|]. intros [t H]. injection H as H _.
        now elim N.
Qed.

Lemma take_drop (n : nat) (s : string) : take n s ++ drop n s = s.
Proof.
  revert s. induction n as [|n IH]; intros [|c s]; simpl; try reflexivity.
  now rewrite IH.
Qed.

Lemma take_append (a b : string) : take (String.length a) (a ++ b) = a.
Proof.
  induction a as [|x a IH]; simpl.
  - now destruct b.
  - now rewrite IH.
Qed.

Lemma drop_append (a b : string) : drop (String.length a) (a ++ b) = b.
Proof. induction a as [|x a IH]; simpl; [reflexivity | exact IH]. Qed.

Lemma length_take (n : nat) (s : string) :
  n <= String.length s -> String.length (take n s) = n.
Proof.
  revert s. induction n as [|n IH]; intros [|c s]; simpl; intros H;
    try reflexivity; try lia.
  rewrite IH; lia.
Qed.

Lemma take_all (n : nat) (s : string) :
  String.length s <= n -> take n s = s.
Proof.
  revert s. induction n as [|n IH]; intros [|c s]; simpl; intros H;
    try reflexivity; try lia.
  rewrite IH; [reflexivity | lia].
Qed.

Lemma occurs_at_length (sub s : string) (i : nat) :
  occurs_at sub s i -> i + String.length sub <= String.length s.
Proof.
  intros (a & b & -> & <-). rewrite !length_append. lia.
Qed.

Lemma occurs_at_0 (sub s : string) :
  occurs_at sub s 0 <-> prefix sub s = true.
Proof.
  rewrite prefix_iff. split.
  - intros (a & b & -> & L). destruct a; [|discriminate]. now exists b.
  - intros [t ->]. now exists "", t.
Qed.

Lemma occurs_at_S (sub s : string) (c : ascii) (i : nat) :
  occurs_at sub (String c s) (S i) <-> occurs_at sub s i.
Proof.
  split.
  - intros (a & b & H & L). destruct a as [|x a]; [discriminate|].
    simpl in H. injection H as _ H. injection L as L. now exists a, b.
  - intros (a & b & -> & L). exists (String c a), b. simpl. now rewrite L.
Qed.

Lemma occurs_at_drop (sub s : string) (m i : nat) :
  m <= String.length s ->
  occurs_at sub (drop m s) i <-> occurs_at sub s (m + i).
Proof.
  revert s. induction m as [|m IH]; intros s Hm.
  - now destruct s.
  - destruct s as [|c s]; simpl in Hm; [lia|].
    simpl. rewrite occurs_at_S. apply IH. lia.
Qed.

Lemma index_of_spec (sub s : string) :
  match index_of sub s with
  | Some i => first_at sub s i
  | None => ~ contains sub s
  end.
Proof.
  unfold first_at, first_from, contains.
  induction s as [|c s IH].
  - cbn [index_of]. destruct (prefix sub "") eqn:P.
    + split; [lia|]. split; [now apply occurs_at_0 | intros; lia].
    + intros [i H]. pose proof (occurs_at_length _ _ _ H) as L. simpl in L.
      assert (i = 0) by lia. subst i. apply occurs_at_0 in H. congruence.
  - cbn [index_of]. destruct (prefix sub (String c s)) eqn:P.
    + split; [lia|]. split; [now apply occurs_at_0 | intros; lia].
    + destruct (index_of sub s) as [i|]; simpl.
      * destruct IH as (_ & O & F). split; [lia|]. split.
        -- now apply occurs_at_S.
        -- intros [|j] _ Hj H.
           ++ apply occurs_at_0 in H. congruence.
           ++ apply occurs_at_S in H. apply (F j); [lia | lia | exact H].
      * intros [[|j] H].
        -- apply occurs_at_0 in H. congruence.
        -- apply occurs_at_S in H. apply IH. now exists j.
Qed.

Lemma first_from_unique (sub s : string) (m i j : nat) :
  first_from sub s m i -> first_from sub s m j -> i = j.
Proof.
  intros (Mi & Oi & Fi) (Mj & Oj & Fj).
  destruct (Nat.lt_trichotomy i j) as [L|[E|L]]; [|exact E|].
  - elim (Fj i Mi L Oi).
  - elim (Fi j Mj L Oj).
Qed.

Lemma index_of_Some (sub s : string) (i : nat) :
  index_of sub s = Some i <-> first_at sub s i.
Proof.
  pose proof (index_of_spec sub s) as H. split.
  - intros E. now rewrite E in H.
  - intros F. destruct (index_of sub s) as [j|].
    + f_equal. exact (first_from_unique _ _ _ _ _ H F).
    + elim H. destruct F as (_ & O & _). now exists i.
Qed.

Lemma index_of_None (sub s : string) :
  index_of sub s = None <-> ~ contains sub s.
Proof.
  pose proof (index_of_spec sub s) as H. split.
  - intros E. now rewrite E in H.
  - intros N. destruct (index_of sub s) as [j|]; [|reflexivity].
    elim N. destruct H as (_ & O & _). now exists j.
Qed.

Lemma index_of_drop (sub s : string) (m i : nat) :
  m <= String.length s ->
  index_of sub (drop m s) = Some i <-> first_from sub s m (m + i).
Proof.
  intros Hm. rewrite index_of_Some. unfold first_at, first_from. split.
  - intros (_ & O & F). split; [lia|]. split.
    + now apply occurs_at_drop.
    + intros j Mj Lj H. apply (F (j - m)); [lia | lia |].
      apply occurs_at_drop; [exact Hm|]. now replace (m + (j - m)) with j by lia.
  - intros (_ & O & F). split; [lia|]. split.
    + now apply occurs_at_drop in O.
    + intros j _ Lj H. apply (F (m + j)); [lia | lia |].
      now apply occurs_at_drop in H.
Qed.


(** ** [find], slices and [split] at the first occurrence *)

Lemma find_0 (s sub : string) :
  find s sub 0 = match index_of sub s with
                 | Some i => Z.of_nat i
                 | None => (-1)%Z
                 end.
Proof.
  unfold find. cbn [Z.ltb Z.compare].
  destruct (Z.ltb_spec (Z.of_nat (String.length s)) 0) as [L|_]; [lia|].
  change (Z.to_nat 0) with 0. replace (drop 0 s) with s by now destruct s.
  now destruct (index_of sub s).
Qed.

Lemma find_from (s sub : string) (m : nat) :
  m <= String.length s ->
  find s sub (Z.of_nat m) = match index_of sub (drop m s) with
                            | Some i => Z.of_nat (m + i)
                            | None => (-1)%Z
                            end.
Proof.
  intros Hm. unfold find.
  destruct (Z.ltb_spec (Z.of_nat m) 0) as [L|_]; [lia|].
  destruct (Z.ltb_spec (Z.of_nat (String.length s)) (Z.of_nat m)) as [L|_]; [lia|].
  rewrite Nat2Z.id. destruct (index_of sub (drop m s)); [|reflexivity].
  now rewrite Nat2Z.inj_add.
Qed.

Lemma slice_to_nat (s : string) (n : nat) :
  n <= String.length s -> slice_to s (Z.of_nat n) = take n s.
Proof.
  intros Hn. unfold slice_to, clamp.
  destruct (Z.ltb_spec (Z.of_nat n) 0) as [L|_]; [lia|].
  rewrite Z.min_l by lia. now rewrite Nat2Z.id.
Qed.


Lemma split_once_found (s sep a b : string) :
  s = a ++ sep ++ b -> first_at sep s (String.length a) ->
  split_once s sep = [a; b].
Proof.
  intros E F. unfold split_once. apply index_of_Some in F. rewrite F.
  rewrite <- length_append. subst s. rewrite take_append.
  now rewrite <- append_assoc, drop_append.
Qed.

Lemma split_once_missing (s sep : string) :
  ~ contains sep s -> split_once s sep = [s].
Proof.
  intros N. unfold split_once. apply index_of_None in N. now rewrite N.
Qed.

Lemma first_at_cut (sub s : string) (i : nat) :
  first_at sub s i ->
  exists a b, s = a ++ sub ++ b /\ String.length a = i.
Proof. intros (_ & O & _). exact O. Qed.

Lemma contains_splits (line : string) :
  contains separator line -> exists pre body, splits_as line pre body.
Proof.
  intros C. pose proof (index_of_spec separator line) as H.
  destruct (index_of separator line) as [i|]; [|now elim H].
  destruct (first_at_cut _ _ _ H) as (a & b & E & L).
  exists a, b. split; [exact E | now rewrite L].
Qed.

Lemma splits_contains (line pre body : string) :
  splits_as line pre body -> contains separator line.
Proof. intros [_ (_ & O & _)]. now exists (String.length pre). Qed.

Lemma splits_as_unique (line pre body pre' body' : string) :
  splits_as line pre body -> splits_as line pre' body' ->
  pre = pre' /\ body = body'.
Proof.
  intros [E F] [E' F'].
  pose proof (first_from_unique _ _ _ _ _ F F') as L.
  rewrite E' in E. destruct (append_eq_length _ _ _ _ E (eq_sym L)) as [-> B].
  split; [reflexivity|]. apply append_inv_l in B. now symmetry.
Qed.

Lemma unpack_split_line (line pre body : string) :
  splits_as line pre body ->
  unpack2 (split_once line separator) = Ok (pre, body).
Proof. intros [E F]. now rewrite (split_once_found _ _ _ _ E F). Qed.

Lemma unpack_split_missing (line : string) :
  ~ contains separator line ->
  unpack2 (split_once line separator) = Raise ValueError.
Proof. intros N. now rewrite (split_once_missing _ _ N). Qed.

(** ** [strip] *)

Lemma lstrip_spec (s : string) :
  exists w, s = w ++ lstrip s /\ blank w = true /\ starts_nonspace (lstrip s).
Proof.
  induction s as [|c s (w & E & B & N)]; simpl.
  - exists "". repeat split. intros c t H. discriminate.
  - destruct (isspace c) eqn:Sc.
    + exists (String c w). simpl. rewrite Sc, B. repeat split.
      * now rewrite <- E.
      * exact N.
    + exists "". repeat split. intros d t H. now injection H as <- _.
Qed.

Lemma rstrip_spec (s : string) :
  exists w, s = rstrip s ++ w /\ blank w = true /\ ends_nonspace (rstrip s).
Proof.
  induction s as [|c s (w & E & B & N)]; simpl.
  - exists "". repeat split. intros [|d t] c H; discriminate.
  - destruct (rstrip s) as [|d r] eqn:R.
    + simpl in E. subst w. destruct (isspace c) eqn:Sc.
      * exists (String c s). simpl. rewrite Sc, B. repeat split.
        intros [|d t] x H; discriminate.
      * exists s. repeat split; [exact B|].
        intros [|d t] x H; simpl in H.
        -- now injection H as <-.
        -- injection H as _ H. destruct t; discriminate.
    + exists w. repeat split; [now rewrite E | exact B |].
      intros [|e t] x H; simpl in H; [discriminate|].
      injection H as _ H. now apply (N t x).
Qed.

Lemma rstrip_starts (s : string) :
  starts_nonspace s -> starts_nonspace (rstrip s).
Proof.
  intros N c t H. destruct s as [|d s]; simpl in H; [discriminate|].
  pose proof (N d s eq_refl) as Sd. destruct (rstrip s).
  - rewrite Sd in H. injection H as <- _. exact Sd.
  - injection H as <- _. exact Sd.
Qed.

Lemma strip_trimmed (s : string) : trimmed_of s (strip s).
Proof.
  unfold strip. destruct (lstrip_spec s) as (w1 & E1 & B1 & N1).
  destruct (rstrip_spec (lstrip s)) as (w2 & E2 & B2 & N2).
  exists w1, w2. repeat split; try assumption.
  - now rewrite <- E2.
  - now apply rstrip_starts.
Qed.

Lemma lstrip_blank (w s : string) :
  blank w = true -> lstrip (w ++ s) = lstrip s.
Proof.
  induction w as [|c w IH]; simpl; [reflexivity|].
  intros B. apply andb_prop in B as [Sc B]. rewrite Sc. now apply IH.
Qed.

Lemma lstrip_nonspace (s : string) : starts_nonspace s -> lstrip s = s.
Proof.
  intros N. destruct s as [|c s]; [reflexivity|].
  simpl. now rewrite (N c s eq_refl).
Qed.

Lemma rstrip_blank (w : string) : blank w = true -> rstrip w = "".
Proof.
  induction w as [|c w IH]; simpl; [reflexivity|].
  intros B. apply andb_prop in B as [Sc B]. now rewrite (IH B), Sc.
Qed.

Lemma rstrip_nonspace (t w : string) :
  ends_nonspace t -> blank w = true -> rstrip (t ++ w) = t.
Proof.
  intros N B. induction t as [|c t IH]; simpl.
  - now apply rstrip_blank.
  - rewrite IH.
    + destruct t as [|d t]; [|reflexivity].
      now rewrite (N "" c eq_refl).
    + intros t' x H. apply (N (String c t') x). simpl. now rewrite H.
Qed.

Lemma lstrip_all_blank (w : string) : blank w = true -> lstrip w = "".
Proof.
  induction w as [|c w IH]; simpl; [reflexivity|].
  intros B. apply andb_prop in B as [Sc B]. rewrite Sc. now apply IH.
Qed.

Lemma strip_unique (s t : string) : trimmed_of s t -> strip s = t.
Proof.
  intros (w1 & w2 & -> & B1 & B2 & N1 & N2). unfold strip.
  rewrite (lstrip_blank _ _ B1). destruct t as [|c t].
  - simpl. now rewrite (lstrip_all_blank _ B2).
  - rewrite lstrip_nonspace.
    + now apply rstrip_nonspace.
    + intros d u E. simpl in E. injection E as <- _. exact (N1 c t eq_refl).
Qed.

(** ** The preamble *)

Ltac by_search := apply index_of_Some; reflexivity.

Lemma extract_split (line pre body : string) :
  splits_as line pre body ->
  extract_preamble_details line
  = Ok ((if negb (find pre "(TID=" 0 =? -1)%Z
         then strip (slice_to pre (find pre ")" (find pre "(TID=" 0) + 1))
         else "Unknown TID"),
        (if negb (find pre "| " 0 =? -1)%Z
         then strip (slice_from pre (find pre "| " 0 + 2))
         else "Unknown Order Type")).
Proof.
  intros H. unfold extract_preamble_details.
  change "]: " with separator. now rewrite (unpack_split_line _ _ _ H).
Qed.

Lemma extract_missing (line : string) :
  ~ contains separator line ->
  extract_preamble_details line = Raise ValueError.
Proof.
  intros N. unfold extract_preamble_details.
  change "]: " with separator. now rewrite (unpack_split_missing _ N).
Qed.

Lemma find_0_first (s sub : string) (i : nat) :
  first_at sub s i -> find s sub 0 = Z.of_nat i.
Proof. intros F. rewrite find_0. apply index_of_Some in F. now rewrite F. Qed.

Lemma find_0_missing (s sub : string) :
  ~ contains sub s -> find s sub 0 = (-1)%Z.
Proof. intros N. rewrite find_0. apply index_of_None in N. now rewrite N. Qed.

Lemma first_at_bound (sub s : string) (i : nat) :
  first_at sub s i -> i + String.length sub <= String.length s.
Proof. intros (_ & O & _). now apply occurs_at_length. Qed.

Lemma tid_with_close (pre a b : string) (m e : nat) :
  first_at "(TID=" pre m -> first_from ")" pre m e ->
  pre = a ++ ")" ++ b -> String.length a = e ->
  (if negb (find pre "(TID=" 0 =? -1)%Z
   then strip (slice_to pre (find pre ")" (find pre "(TID=" 0) + 1))
   else "Unknown TID") = strip (a ++ ")").
Proof.
  intros Fm Fe E L. rewrite (find_0_first _ _ _ Fm).
  destruct (Z.eqb_spec (Z.of_nat m) (-1)) as [X|_]; [lia|]. cbn [negb].
  pose proof (first_at_bound _ _ _ Fm) as Bm. simpl in Bm.
  assert (Hm : m <= String.length pre) by lia.
  rewrite (find_from _ _ _ Hm).
  assert (Me : m <= e) by (destruct Fe; assumption).
  replace e with (m + (e - m)) in Fe by lia.
  apply index_of_drop in Fe; [|exact Hm]. rewrite Fe.
  replace (m + (e - m)) with e by lia.
  replace (Z.of_nat e + 1)%Z with (Z.of_nat (S e)) by lia.
  assert (Le : S e <= String.length pre).
  { rewrite E, !length_append. simpl. lia. }
  rewrite (slice_to_nat _ _ Le). f_equal.
  rewrite E, <- append_assoc.
  replace (S e) with (String.length (a ++ ")")).
  - apply take_append.
  - rewrite length_append. simpl. lia.
Qed.

Lemma tid_without_marker (pre : string) :
  ~ contains "(TID=" pre ->
  (if negb (find pre "(TID=" 0 =? -1)%Z
   then strip (slice_to pre (find pre ")" (find pre "(TID=" 0) + 1))
   else "Unknown TID") = "Unknown TID".
Proof. intros N. now rewrite (find_0_missing _ _ N). Qed.




(** C6, as stated: the transaction id would be the raw preamble prefix
    through the first [')'] at or after ["(TID="].  It is not: the preamble
    [" (TID=1)"] has that prefix equal to itself, leading blank included, and
    the decoder returns ["(TID=1)"]. *)
Lemma tid_is_raw_prefix_fails : ~ tid_is_raw_prefix.
Proof.
  intros H.
  destruct (H " (TID=1)]: 35=D" " (TID=1)" "35=D") as [H1 _].
  { split; [reflexivity | by_search]. }
  destruct (H1 1 7 " (TID=1" "") as [ot E].
  - by_search.
  - apply (index_of_drop ")" " (TID=1)" 1 6); [simpl; lia | reflexivity].
  - reflexivity.
  - reflexivity.
  - vm_compute in E. discriminate.
Qed.

(** C6, amended: for a line with the separator, when the preamble contains
    ["(TID="] and a [')'] at or after it, the transaction id is the preamble
    prefix through the first such [')'] with its surrounding whitespace
    removed; when the preamble has no ["(TID="], it is ["Unknown TID"]. *)
Theorem tid_is_trimmed_prefix (line pre body : string) :
  splits_as line pre body ->
  (forall m e a b,
      first_at "(TID=" pre m -> first_from ")" pre m e ->
      pre = a ++ ")" ++ b -> String.length a = e ->
      exists tid order_type,
        extract_preamble_details line = Ok (tid, order_type) /\
        trimmed_of (a ++ ")") tid) /\
  (~ contains "(TID=" pre ->
   exists order_type,
     extract_preamble_details line = Ok ("Unknown TID", order_type)).
Proof.
  intros S. rewrite (extract_split _ _ _ S). split.
  - intros m e a b Fm Fe E L. rewrite (tid_with_close _ _ _ _ _ Fm Fe E L).
    eexists. eexists. split; [reflexivity | apply strip_trimmed].
  - intros N. rewrite (tid_without_marker _ N). eexists. reflexivity.
Qed.

Lemma tid_is_trimmed_prefix_witness :
  exists tid order_type,
    extract_preamble_details " (TID=1) | New]: 35=D" = Ok (tid, order_type) /\
    trimmed_of " (TID=1)" tid.
Proof.
  refine (proj1 (tid_is_trimmed_prefix " (TID=1) | New]: 35=D"
                   " (TID=1) | New" "35=D" _) 1 7 " (TID=1" " | New" _ _ _ _).
  - split; [reflexivity | by_search].
  - by_search.
  - apply (index_of_drop ")" " (TID=1) | New" 1 6); [simpl; lia | reflexivity].
  - reflexivity.
  - reflexivity.
Defined.





(** ** Dicts *)

Lemma mem_In (x : string) (l : list string) : mem x l = true <-> In x l.
Proof.
  induction l as [|y l IH]; simpl.
  - split; [discriminate | tauto].
  - rewrite orb_true_iff, IH, String.eqb_eq. intuition congruence.
Qed.

Lemma mem_false (x : string) (l : list string) : mem x l = false <-> ~ In x l.
Proof.
  rewrite <- mem_In. destruct (mem x l); split; congruence.
Qed.

Section DictFacts.
Context {V : Type}.
Implicit Types (d : list (string * V)) (k : string) (v : V).

Lemma get_set_same d k v : get (set d k v) k = Some v.
Proof.
  induction d as [|[k' v'] d IH]; simpl.
  - now rewrite String.eqb_refl.
  - destruct (String.eqb_spec k k') as [->|N]; simpl.
    + now rewrite String.eqb_refl.
    + apply String.eqb_neq in N. now rewrite N.
Qed.

Lemma get_set_other d k k' v : k <> k' -> get (set d k v) k' = get d k'.
Proof.
  intros N. induction d as [|[k0 v0] d IH]; simpl.
  - apply not_eq_sym, String.eqb_neq in N. now rewrite N.
  - destruct (String.eqb_spec k k0) as [->|N0]; simpl.
    + apply not_eq_sym, String.eqb_neq in N. now rewrite N.
    + now rewrite IH.
Qed.

Lemma keys_set d k v : keys (set d k v) = uniq_add (keys d) k.
Proof.
  unfold uniq_add, keys. induction d as [|[k' v'] d IH]; simpl.
  - reflexivity.
  - destruct (k =? k') eqn:E; simpl; [reflexivity|].
    rewrite IH. now destruct (mem k (map fst d)).
Qed.

Lemma get_None_keys d k : get d k = None <-> ~ In k (keys d).
Proof.
  unfold keys. induction d as [|[k' v'] d IH]; simpl.
  - tauto.
  - destruct (String.eqb_spec k k') as [->|N].
    + split; [discriminate | tauto].
    + rewrite IH. intuition congruence.
Qed.

Lemma get_Some_In d k v : get d k = Some v -> In (k, v) d.
Proof.
  induction d as [|[k' v'] d IH]; simpl; [discriminate|].
  destruct (String.eqb_spec k k') as [->|N].
  - intros H. injection H as ->. now left.
  - intros H. right. now apply IH.
Qed.
End DictFacts.

(** ** The loop over the body parts *)

Lemma loop_body_field (st : loop_state) (part : string) :
  loop_body st part = Ok match field_of part with
                         | Some kv => apply_field st kv
                         | None => st
                         end.
Proof.
  unfold loop_body, str_in, field_of, split_once.
  destruct (index_of "=" part) as [i|]; [|reflexivity].
  cbn [negb unpack2 bind String.length]. unfold apply_field, has_key, subscript.
  destruct (get columns_mapping (take i part)) as [name|]; [|reflexivity].
  cbn [mem bind].
  destruct (take i part =? "448"); [reflexivity|].
  destruct (take i part =? "447"); [reflexivity|].
  destruct (take i part =? "452"); reflexivity.
Qed.

Lemma for_each_fields (parts : list string) (st : loop_state) :
  for_each parts loop_body st
  = Ok (fold_left apply_field
          (flat_map (fun part => match field_of part with
                                 | Some kv => [kv]
                                 | None => []
                                 end) parts) st).
Proof.
  revert st. induction parts as [|part parts IH]; intros st; simpl.
  - reflexivity.
  - rewrite loop_body_field, fold_left_app, IH.
    now destruct (field_of part).
Qed.

Lemma parse_message_split (line pre body : string) :
  splits_as line pre body ->
  exists tid order_type,
    extract_preamble_details line = Ok (tid, order_type) /\
    parse_message line
    = Ok (attach_groups
            (fold_left apply_field (fields_of body) (loop_init tid order_type))).
Proof.
  intros S. unfold parse_message. rewrite (extract_split _ _ _ S).
  eexists. eexists. split; [reflexivity|].
  cbn [bind]. change "]: " with separator.
  rewrite (unpack_split_line _ _ _ S). cbn [bind].
  now rewrite for_each_fields.
Qed.

Lemma parse_message_missing (line : string) :
  ~ contains separator line -> parse_message line = Raise ValueError.
Proof.
  intros N. unfold parse_message. now rewrite (extract_missing _ N).
Qed.

Lemma contains_dec (sub s : string) : contains sub s \/ ~ contains sub s.
Proof.
  pose proof (index_of_spec sub s) as H. destruct (index_of sub s) as [i|].
  - left. destruct H as (_ & O & _). now exists i.
  - now right.
Qed.

Lemma parse_message_ok (line : string) :
  contains separator line -> exists msg, parse_message line = Ok msg.
Proof.
  intros C. destruct (contains_splits _ C) as (pre & body & S).
  destruct (parse_message_split _ _ _ S) as (tid & ot & _ & E).
  eexists. exact E.
Qed.

(** C4: decoding a line raises exactly when the line does not contain the
    separator ["]: "], and then it is the unpacking error; a line that
    contains it always decodes to a record. *)
Theorem parse_message_fails_iff (line : string) :
  ((exists e, parse_message line = Raise e) <-> ~ contains separator line) /\
  (~ contains separator line -> parse_message line = Raise ValueError) /\
  (contains separator line -> exists msg, parse_message line = Ok msg).
Proof.
  assert (Hok : contains separator line -> exists msg, parse_message line = Ok msg).
  { intros C. destruct (contains_splits _ C) as (pre & body & S).
    destruct (parse_message_split _ _ _ S) as (tid & ot & _ & E).
    eexists. exact E. }
  split; [|split].
  - split.
    + intros [e E] C. destruct (Hok C) as [msg M]. congruence.
    + intros N. exists ValueError. now apply parse_message_missing.
  - apply parse_message_missing.
  - exact Hok.
Qed.

Lemma parse_message_fails_iff_witness :
  parse_message "no separator here" = Raise ValueError /\
  exists msg, parse_message "a]: 35=D|=|x" = Ok msg.
Proof.
  split.
  - apply (proj1 (proj2 (parse_message_fails_iff "no separator here"))).
    apply index_of_None. reflexivity.
  - apply (proj2 (proj2 (parse_message_fails_iff "a]: 35=D|=|x"))).
    exists 1. apply occurs_at_S, occurs_at_0. reflexivity.
Defined.

(** ** What the loop accumulates *)

Lemma apply_field_partyIDs (st : loop_state) (k v : string) :
  partyIDs (apply_field st (k, v))
  = (partyIDs st ++ if k =? "448" then [v] else [])%list.
Proof.
  unfold apply_field. destruct (String.eqb_spec k "448") as [->|N].
  - reflexivity.
  - destruct (get columns_mapping k);
      [destruct (k =? "447"); [|destruct (k =? "452")]|];
      simpl; now rewrite app_nil_r.
Qed.

Lemma apply_field_partyIDSources (st : loop_state) (k v : string) :
  partyIDSources (apply_field st (k, v))
  = (partyIDSources st ++ if k =? "447" then [v] else [])%list.
Proof.
  unfold apply_field. destruct (String.eqb_spec k "447") as [->|N].
  - reflexivity.
  - destruct (get columns_mapping k);
      [destruct (k =? "448"); [|destruct (k =? "452")]|];
      simpl; now rewrite app_nil_r.
Qed.

Lemma apply_field_partyRoles (st : loop_state) (k v : string) :
  partyRoles (apply_field st (k, v))
  = (partyRoles st ++ if k =? "452" then [v] else [])%list.
Proof.
  unfold apply_field. destruct (String.eqb_spec k "452") as [->|N].
  - reflexivity.
  - destruct (get columns_mapping k);
      [destruct (k =? "448"); [|destruct (k =? "447")]|];
      simpl; now rewrite app_nil_r.
Qed.

Lemma fold_accumulates (proj : loop_state -> list string) (code : string) :
  (forall st k v,
      proj (apply_field st (k, v))
      = (proj st ++ if k =? code then [v] else [])%list) ->
  forall fs st,
    proj (fold_left apply_field fs st)
    = (proj st ++ map snd (filter (fun kv => fst kv =? code) fs))%list.
Proof.
  intros Step fs. induction fs as [|[k v] fs IH]; intros st.
  - simpl. now rewrite app_nil_r.
  - cbn [fold_left]. rewrite IH, Step. cbn [filter fst].
    destruct (k =? code); simpl.
    + now rewrite <- app_assoc.
    + now rewrite app_nil_r.
Qed.

Lemma loop_sequences (body tid order_type : string) :
  let st := fold_left apply_field (fields_of body) (loop_init tid order_type) in
  partyIDs st = values_of "448" body /\
  partyIDSources st = values_of "447" body /\
  partyRoles st = values_of "452" body.
Proof.
  cbv zeta. unfold values_of. repeat split.
  - now rewrite (fold_accumulates partyIDs "448" apply_field_partyIDs).
  - now rewrite (fold_accumulates partyIDSources "447" apply_field_partyIDSources).
  - now rewrite (fold_accumulates partyRoles "452" apply_field_partyRoles).
Qed.

Lemma In_uniq_add (x : string) (l : list string) (acc : list string) :
  In x (fold_left uniq_add l acc) <-> In x acc \/ In x l.
Proof.
  revert acc. induction l as [|y l IH]; intros acc; simpl.
  - tauto.
  - rewrite IH. unfold uniq_add. destruct (mem y acc) eqn:M.
    + apply mem_In in M. intuition (subst; auto).
    + rewrite in_app_iff. simpl. tauto.
Qed.

Lemma apply_field_keys (st : loop_state) (kv : string * string) :
  keys (data (apply_field st kv))
  = fold_left uniq_add (written_key kv) (keys (data st)).
Proof.
  destruct kv as [k v]. unfold apply_field, written_key. cbn [fst mem].
  destruct (get columns_mapping k) as [name|].
  - destruct (k =? "448"); [reflexivity|].
    destruct (k =? "447"); [reflexivity|].
    destruct (k =? "452"); [reflexivity|].
    simpl. apply keys_set.
  - simpl. apply keys_set.
Qed.

Lemma fold_keys (fs : list (string * string)) (st : loop_state) :
  keys (data (fold_left apply_field fs st))
  = fold_left uniq_add (flat_map written_key fs) (keys (data st)).
Proof.
  revert st. induction fs as [|kv fs IH]; intros st; simpl.
  - reflexivity.
  - now rewrite IH, apply_field_keys, fold_left_app.
Qed.

Lemma schema_groups :
  forallb (fun kv => implb (mem (snd kv) group_names)
                           (mem (fst kv) ["448"; "447"; "452"]))
          columns_mapping = true.
Proof. reflexivity. Qed.

Lemma written_key_not_group (kv : string * string) (name : string) :
  In name (written_key kv) -> ~ In name group_names.
Proof.
  unfold written_key. destruct (get columns_mapping (fst kv)) as [n|] eqn:G.
  - destruct (mem (fst kv) ["448"; "447"; "452"]) eqn:M; simpl; [tauto|].
    intros [<-|[]] Hin. apply get_Some_In in G.
    pose proof (proj1 (forallb_forall _ _) schema_groups _ G) as I.
    cbn [fst snd] in I.
    assert (Hm : mem n group_names = true) by (apply mem_In; exact Hin).
    now rewrite Hm, M in I.
  - intros [<-|[]] Hin. unfold unknown_column in Hin. simpl in Hin.
    intuition discriminate.
Qed.

Lemma loop_group_absent (fs : list (string * string)) (tid order_type name : string) :
  In name group_names ->
  get (data (fold_left apply_field fs (loop_init tid order_type))) name = None.
Proof.
  intros Hin. apply get_None_keys. rewrite fold_keys, In_uniq_add.
  intros [H|H].
  - simpl in H, Hin. intuition (subst; discriminate).
  - apply in_flat_map in H as (kv & _ & H).
    exact (written_key_not_group _ _ H Hin).
Qed.

Lemma attach_groups_spec (st : loop_state) :
  (partyIDs st <> [] ->
   get (attach_groups st) "448 PartyID" = Some (VList (partyIDs st)) /\
   get (attach_groups st) "447 PartyIDSource" = Some (VList (partyIDSources st)) /\
   get (attach_groups st) "452 PartyRole" = Some (VList (partyRoles st))) /\
  (partyIDs st = [] -> attach_groups st = data st).
Proof.
  unfold attach_groups. destruct (partyIDs st) as [|p ps]; split;
    try congruence; intros _.
  repeat split.
  - rewrite !get_set_other by discriminate. apply get_set_same.
  - rewrite get_set_other by discriminate. apply get_set_same.
  - apply get_set_same.
Qed.

(** C2, as stated: the group would be attached as soon as one of the three
    sequences is not empty.  It is not: the body ["447=B"] gives a PartyIDSource
    sequence with one value and a record without any of the three keys. *)
Lemma group_attached_if_any_fails : ~ group_attached_if_any.
Proof.
  intros H. destruct (H "x]: 447=B" "x" "447=B") as (msg & E & A & _).
  { split; [reflexivity | by_search]. }
  destruct A as (_ & A & _).
  - right. left. discriminate.
  - vm_compute in E. injection E as <-. discriminate.
Qed.

(** C2, amended: for a line with the separator, the three sequences are
    attached to the record exactly when the PartyID sequence (tag 448) is not
    empty; when it is empty none of the three is attached, whatever tags 447
    and 452 gave. *)
Theorem group_attached_iff_party_id (line pre body : string) :
  splits_as line pre body ->
  exists msg,
    parse_message line = Ok msg /\
    (values_of "448" body <> [] -> group_attached body msg) /\
    (values_of "448" body = [] -> group_absent msg).
Proof.
  intros S. destruct (parse_message_split _ _ _ S) as (tid & ot & _ & E).
  eexists. split; [exact E|].
  destruct (loop_sequences body tid ot) as (P1 & P2 & P3).
  destruct (attach_groups_spec
              (fold_left apply_field (fields_of body) (loop_init tid ot)))
    as [A B].
  rewrite P1 in A, B. rewrite P2, P3 in A. split.
  - exact A.
  - intros Z. rewrite (B Z). unfold group_absent.
    repeat split; apply loop_group_absent; simpl; tauto.
Qed.

Lemma group_attached_iff_party_id_witness :
  exists msg,
    parse_message "x]: 447=B|448=A" = Ok msg /\
    (values_of "448" "447=B|448=A" <> [] -> group_attached "447=B|448=A" msg) /\
    (values_of "448" "447=B|448=A" = [] -> group_absent msg).
Proof.
  apply (group_attached_iff_party_id "x]: 447=B|448=A" "x" "447=B|448=A").
  split; [reflexivity | by_search].
Defined.

(** C7: a line whose body is [448=A|447=B|452=1|448=C|447=D|452=2] decodes to
    a record whose PartyID sequence is [A, C], PartyIDSource [B, D] and
    PartyRole [1, 2]; and for every body the loop leaves in each of the three
    lists the values of its tag in the order of the body. *)
Theorem repeating_group_order :
  (forall line pre,
      splits_as line pre "448=A|447=B|452=1|448=C|447=D|452=2" ->
      exists msg,
        parse_message line = Ok msg /\
        get msg "448 PartyID" = Some (VList ["A"; "C"]) /\
        get msg "447 PartyIDSource" = Some (VList ["B"; "D"]) /\
        get msg "452 PartyRole" = Some (VList ["1"; "2"])) /\
  (forall body tid order_type,
      exists st,
        for_each (split body "|") loop_body (loop_init tid order_type) = Ok st /\
        partyIDs st = values_of "448" body /\
        partyIDSources st = values_of "447" body /\
        partyRoles st = values_of "452" body).
Proof.
  split.
  - intros line pre S.
    destruct (parse_message_split _ _ _ S) as (tid & ot & _ & E).
    eexists. split; [exact E|].
    destruct (loop_sequences "448=A|447=B|452=1|448=C|447=D|452=2" tid ot)
      as (P1 & P2 & P3).
    destruct (attach_groups_spec
                (fold_left apply_field
                   (fields_of "448=A|447=B|452=1|448=C|447=D|452=2")
                   (loop_init tid ot))) as [A _].
    rewrite P1, P2, P3 in A. apply A. discriminate.
  - intros body tid ot. eexists. split; [apply for_each_fields|].
    apply loop_sequences.
Qed.

Lemma repeating_group_order_witness :
  exists msg,
    parse_message "S(TID=1) | Exec]: 448=A|447=B|452=1|448=C|447=D|452=2"
    = Ok msg /\
    get msg "448 PartyID" = Some (VList ["A"; "C"]) /\
    get msg "447 PartyIDSource" = Some (VList ["B"; "D"]) /\
    get msg "452 PartyRole" = Some (VList ["1"; "2"]).
Proof.
  apply (proj1 repeating_group_order
           "S(TID=1) | Exec]: 448=A|447=B|452=1|448=C|447=D|452=2"
           "S(TID=1) | Exec").
  split; [reflexivity | by_search].
Defined.

(** C3, evaluated where the program departs from it: two lines with the same
    preamble whose bodies carry a part [TID=...] decode to records with
    different transaction ids, since ['TID'] is a key of [columns_mapping]
    and the part overwrites what the preamble gave; the same holds for
    ['Order Type']. *)
Theorem body_overrides_preamble_fields :
  splits_as "S(TID=1) | New]: 35=D|TID=a|Order Type=x" "S(TID=1) | New"
            "35=D|TID=a|Order Type=x" /\
  splits_as "S(TID=1) | New]: 35=D|TID=b|Order Type=y" "S(TID=1) | New"
            "35=D|TID=b|Order Type=y" /\
  parse_message "S(TID=1) | New]: 35=D|TID=a|Order Type=x"
  = Ok [("Unknown Tags", VDict []); ("TID", VStr "a");
        ("Order Type", VStr "x"); ("35 MsgType", VStr "D")] /\
  parse_message "S(TID=1) | New]: 35=D|TID=b|Order Type=y"
  = Ok [("Unknown Tags", VDict []); ("TID", VStr "b");
        ("Order Type", VStr "y"); ("35 MsgType", VStr "D")].
Proof.
  split; [split; [reflexivity | by_search]|].
  split; [split; [reflexivity | by_search]|].
  split; reflexivity.
Qed.

(** ** process_file *)

Lemma blank_append (a b : string) :
  blank (a ++ b) = blank a && blank b.
Proof.
  induction a as [|c a IH]; simpl; [reflexivity|].
  now rewrite IH, andb_assoc.
Qed.

Lemma strip_empty_iff (s : string) : strip s = "" <-> blank s = true.
Proof.
  split.
  - intros E. destruct (strip_trimmed s) as (w1 & w2 & H & B1 & B2 & _).
    rewrite E in H. simpl in H. subst s. now rewrite blank_append, B1, B2.
  - intros B. unfold strip. now rewrite (lstrip_all_blank _ B).
Qed.

Lemma truthy_strip (s : string) : truthy (strip s) = negb (blank s).
Proof.
  unfold truthy. destruct (String.eqb_spec (strip s) "") as [E|N].
  - apply strip_empty_iff in E. now rewrite E.
  - destruct (blank s) eqn:B; [|reflexivity].
    elim N. now apply strip_empty_iff.
Qed.

Lemma process_file_cons (line : string) (rest : list string) :
  process_file (line :: rest)
  = if blank line then process_file rest
    else msg <- parse_message line ;;
         msgs <- process_file rest ;;
         Ok (msg :: msgs).
Proof.
  cbn [process_file]. rewrite truthy_strip. now destruct (blank line).
Qed.

Lemma process_file_raises (file : list string) (e : exn) :
  process_file file = Raise e -> e = ValueError.
Proof.
  induction file as [|line rest IH]; [discriminate|].
  rewrite process_file_cons. destruct (blank line); [exact IH|].
  destruct (contains_dec separator line) as [C|N].
  - destruct (parse_message_ok line C) as [msg ->].
    cbn [bind]. destruct (process_file rest) as [msgs|e']; cbn [bind].
    + discriminate.
    + intros H. injection H as <-. now apply IH.
  - rewrite (parse_message_missing _ N). cbn [bind]. congruence.
Qed.

Lemma index_of_contains (sub s : string) (i : nat) :
  index_of sub s = Some i -> contains sub s.
Proof. intros E. apply index_of_Some in E as (_ & O & _). now exists i. Qed.

(** C1, as stated: a batch with a line that lacks the separator would still
    yield the records of its well-formed lines.  It does not: the exception
    of the malformed line leaves the list comprehension and no record is
    returned. *)
Lemma batch_partial_success_fails : ~ batch_partial_success.
Proof.
  intros H.
  destruct (H ["S(TID=1) | New]: 35=D" ++ nl; "garbage" ++ nl]) as (msgs & E & _).
  - exists ("garbage" ++ nl). split; [simpl; tauto|].
    apply index_of_None. reflexivity.
  - exists ("S(TID=1) | New]: 35=D" ++ nl). split; [simpl; tauto|].
    eapply index_of_contains. reflexivity.
  - vm_compute in E. discriminate.
Qed.

(** C1, amended: a batch yields records only when every non-blank line
    contains the separator, and then it yields the record of each non-blank
    line, in order; when some non-blank line lacks the separator the whole
    batch fails with the error of that line and returns no record.  Blank
    lines are skipped. *)
Theorem process_file_all_or_nothing (file : list string) :
  (Forall (fun l => blank l = false -> contains separator l) file ->
   exists msgs,
     process_file file = Ok msgs /\
     Forall2 (fun l msg => parse_message l = Ok msg)
             (filter (fun l => negb (blank l)) file) msgs) /\
  (Exists (fun l => blank l = false /\ ~ contains separator l) file ->
   process_file file = Raise ValueError).
Proof.
  split.
  - induction file as [|line rest IH]; intros F.
    + exists []. split; [reflexivity | constructor].
    + apply Forall_cons_iff in F as [Hl F]. destruct (IH F) as (msgs & E & R).
      rewrite process_file_cons. cbn [filter].
      destruct (blank line); cbn [negb].
      * exists msgs. now split.
      * destruct (parse_message_ok line (Hl eq_refl)) as [msg M].
        exists (msg :: msgs). rewrite M, E. split; [reflexivity|].
        now constructor.
  - induction file as [|line rest IH]; intros X.
    + inversion X.
    + rewrite process_file_cons. apply Exists_cons in X.
      destruct (blank line) eqn:B.
      * destruct X as [[X _]|X]; [discriminate | now apply IH].
      * destruct (contains_dec separator line) as [C|N].
        -- destruct X as [[_ X]|X]; [now elim X|].
           destruct (parse_message_ok line C) as [msg ->].
           cbn [bind]. now rewrite (IH X).
        -- now rewrite (parse_message_missing _ N).
Qed.

Lemma process_file_all_or_nothing_witness :
  (exists msgs,
      process_file ["a]: 35=D" ++ nl; nl; "b]: 35=8" ++ nl] = Ok msgs /\
      Forall2 (fun l msg => parse_message l = Ok msg)
              (filter (fun l => negb (blank l))
                      ["a]: 35=D" ++ nl; nl; "b]: 35=8" ++ nl]) msgs) /\
  process_file ["a]: 35=D" ++ nl; "garbage" ++ nl] = Raise ValueError.
Proof.
  split.
  - apply (proj1 (process_file_all_or_nothing
                    ["a]: 35=D" ++ nl; nl; "b]: 35=8" ++ nl])).
    repeat constructor; intros B; try discriminate B;
      eapply index_of_contains; reflexivity.
  - apply (proj2 (process_file_all_or_nothing
                    ["a]: 35=D" ++ nl; "garbage" ++ nl])).
    apply Exists_cons_tl, Exists_cons_hd. split; [reflexivity|].
    apply index_of_None. reflexivity.
Defined.

(** ** Order of first appearance *)

Lemma mem_filter (p : string -> bool) (x : string) (l : list string) :
  mem x (filter p l) = mem x l && p x.
Proof.
  induction l as [|y l IH]; [reflexivity|].
  cbn [filter mem]. destruct (String.eqb_spec x y) as [E|N].
  - subst y. destruct (p x) eqn:P.
    + cbn [mem]. now rewrite String.eqb_refl.
    + rewrite IH. cbn [orb andb]. apply andb_false_r.
  - cbn [orb]. destruct (p y); [|exact IH].
    cbn [mem]. apply String.eqb_neq in N. now rewrite N.
Qed.

Lemma filter_uniq_add (p : string -> bool) (acc : list string) (x : string) :
  filter p (uniq_add acc x)
  = if p x then uniq_add (filter p acc) x else filter p acc.
Proof.
  unfold uniq_add. rewrite mem_filter.
  destruct (mem x acc) eqn:M, (p x) eqn:P; simpl; try reflexivity;
    rewrite filter_app; simpl; rewrite P; [reflexivity | apply app_nil_r].
Qed.

Lemma filter_first_seen (p : string -> bool) (l acc : list string) :
  filter p (fold_left uniq_add l acc)
  = fold_left uniq_add (filter p l) (filter p acc).
Proof.
  revert acc. induction l as [|x l IH]; intros acc; simpl; [reflexivity|].
  rewrite IH, filter_uniq_add. now destruct (p x).
Qed.

Lemma uniq_add_mem (x : string) (acc : list string) :
  mem x acc = true -> uniq_add acc x = acc.
Proof. intros M. unfold uniq_add. now rewrite M. Qed.

Lemma uniq_add_seen (x : string) (l acc : list string) :
  In x l -> uniq_add (fold_left uniq_add l acc) x = fold_left uniq_add l acc.
Proof.
  intros H. apply uniq_add_mem, mem_In, In_uniq_add. now right.
Qed.

Lemma first_seen_absorb (xs ys acc : list string) :
  fold_left uniq_add (fold_left uniq_add xs ys) acc
  = fold_left uniq_add (ys ++ xs) acc.
Proof.
  revert ys. induction xs as [|x xs IH]; intros ys.
  - now rewrite app_nil_r.
  - cbn [fold_left]. rewrite IH. unfold uniq_add at 2.
    destruct (mem x ys) eqn:M.
    + apply mem_In in M. rewrite !fold_left_app. cbn [fold_left].
      now rewrite (uniq_add_seen _ _ _ M).
    + now rewrite <- app_assoc.
Qed.

Lemma first_seen_head (x : string) (l acc : list string) :
  fold_left uniq_add l (x :: acc)
  = x :: fold_left uniq_add (filter (fun y => negb (y =? x)) l) acc.
Proof.
  revert acc. induction l as [|y l IH]; intros acc; [reflexivity|].
  cbn [fold_left filter]. unfold uniq_add at 2. cbn [mem].
  destruct (y =? x); cbn [orb negb].
  - apply IH.
  - cbn [fold_left]. unfold uniq_add at 3.
    destruct (mem y acc); apply IH.
Qed.

Lemma first_seen_map (f : string -> string) (l acc : list string) :
  (forall a b, f a = f b -> a = b) ->
  fold_left uniq_add (map f l) (map f acc) = map f (fold_left uniq_add l acc).
Proof.
  intros Inj. revert acc. induction l as [|x l IH]; intros acc; [reflexivity|].
  cbn [map fold_left]. rewrite <- IH. f_equal. unfold uniq_add.
  assert (M : mem (f x) (map f acc) = mem x acc).
  { clear -Inj. induction acc as [|y acc IH]; simpl; [reflexivity|].
    rewrite IH. f_equal. destruct (String.eqb_spec x y) as [->|N].
    - apply String.eqb_refl.
    - apply String.eqb_neq. intros E. now apply N, Inj. }
  rewrite M. destruct (mem x acc); [reflexivity|].
  now rewrite map_app.
Qed.

Lemma NoDup_first_seen (l acc : list string) :
  NoDup acc -> NoDup (fold_left uniq_add l acc).
Proof.
  revert acc. induction l as [|x l IH]; intros acc N; [exact N|].
  cbn [fold_left]. apply IH. unfold uniq_add. destruct (mem x acc) eqn:M.
  - exact N.
  - apply mem_false in M. apply NoDup_app; [exact N | repeat constructor; tauto|].
    intros a Ha [<-|[]]. now apply M.
Qed.

Lemma nodupb_NoDup (l : list string) : nodupb l = true -> NoDup l.
Proof.
  induction l as [|x l IH]; simpl; intros H; constructor;
    apply andb_prop in H as [M H].
  - apply mem_false. now destruct (mem x l).
  - now apply IH.
Qed.

Lemma DataFrame_columns_first_seen (msgs : list dict) :
  DataFrame_columns msgs = first_seen (flat_map keys msgs).
Proof.
  unfold DataFrame_columns, first_seen. generalize (@nil string) as acc.
  induction msgs as [|msg msgs IH]; intros acc; simpl; [reflexivity|].
  now rewrite IH, fold_left_app.
Qed.

(** ** The columns of a decoded record *)

Lemma ordered_columns_schema : ordered_columns = Ok schema_names.
Proof. reflexivity. Qed.

Lemma NoDup_schema_names : NoDup schema_names.
Proof. apply nodupb_NoDup. reflexivity. Qed.

Lemma schema_name_not_extra (k name : string) :
  get columns_mapping k = Some name -> is_extra name = false.
Proof.
  intros G. apply get_Some_In in G. unfold is_extra.
  assert (M : mem name schema_names = true).
  { apply mem_In. unfold schema_names. now apply (in_map snd) in G. }
  now rewrite M.
Qed.

Lemma unknown_column_inj (a b : string) :
  unknown_column a = unknown_column b -> a = b.
Proof. unfold unknown_column. apply append_inv_l. Qed.

Lemma unknown_column_extra (code : string) :
  is_extra (unknown_column code) = true.
Proof.
  unfold is_extra. destruct (mem (unknown_column code) schema_names) eqn:M;
    [|reflexivity].
  apply mem_In in M. unfold unknown_column in M. simpl in M.
  repeat (destruct M as [M|M]; [discriminate|]). elim M.
Qed.

Lemma unknown_column_not_tags (code : string) :
  unknown_column code <> "Unknown Tags".
Proof. unfold unknown_column. simpl. discriminate. Qed.

Lemma extra_written_keys (fs : list (string * string)) :
  filter is_extra (flat_map written_key fs)
  = map unknown_column
      (map fst (filter (fun kv => negb (has_key columns_mapping (fst kv))) fs)).
Proof.
  induction fs as [|[k v] fs IH]; [reflexivity|].
  cbn [flat_map filter]. rewrite filter_app, IH.
  unfold written_key, has_key. cbn [fst].
  destruct (get columns_mapping k) as [name|] eqn:G; cbn [negb].
  - destruct (mem k ["448"; "447"; "452"]); [reflexivity|].
    cbn [filter]. now rewrite (schema_name_not_extra _ _ G).
  - cbn [filter map fst]. now rewrite unknown_column_extra.
Qed.

Lemma keys_attach_groups (st : loop_state) :
  keys (attach_groups st)
  = fold_left uniq_add (match partyIDs st with
                        | [] => []
                        | _ :: _ => group_names
                        end) (keys (data st)).
Proof.
  unfold attach_groups. destruct (partyIDs st); [reflexivity|].
  now rewrite !keys_set.
Qed.

Lemma extra_keys_of_record (body tid order_type : string) :
  filter is_extra
    (keys (attach_groups
             (fold_left apply_field (fields_of body) (loop_init tid order_type))))
  = fold_left uniq_add (map unknown_column (unknown_codes body)) ["Unknown Tags"].
Proof.
  rewrite keys_attach_groups, fold_keys, <- fold_left_app, filter_first_seen.
  rewrite filter_app, extra_written_keys.
  replace (filter is_extra _) with (@nil string) at 1.
  - now rewrite app_nil_r.
  - now destruct (partyIDs _).
Qed.

(** ** The columns of a batch *)

Lemma decoded_cons (line : string) (lines bodies : list string) (msgs : list dict) :
  decoded (line :: lines) bodies msgs ->
  exists pre body bodies' tid order_type msgs',
    bodies = body :: bodies' /\
    msgs = attach_groups
             (fold_left apply_field (fields_of body) (loop_init tid order_type))
           :: msgs' /\
    splits_as line pre body /\
    decoded lines bodies' msgs'.
Proof.
  intros [B M]. inversion B as [|? body ? bodies' [pre S] B']; subst.
  inversion M as [|? msg ? msgs' P M']; subst.
  destruct (parse_message_split _ _ _ S) as (tid & ot & _ & E).
  rewrite E in P. injection P as <-.
  exists pre, body, bodies', tid, ot, msgs'.
  split; [reflexivity|]. split; [reflexivity|]. split; [exact S|].
  split; assumption.
Qed.

Lemma decoded_nil (bodies : list string) (msgs : list dict) :
  decoded [] bodies msgs -> bodies = [] /\ msgs = [].
Proof. intros [B M]. inversion B. inversion M. now split. Qed.

Lemma extra_keys_of_batch (lines bodies : list string) (msgs : list dict) :
  decoded lines bodies msgs ->
  forall acc,
    fold_left uniq_add (filter is_extra (flat_map keys msgs)) acc
    = fold_left uniq_add
        (flat_map (fun body => "Unknown Tags"
                               :: map unknown_column (unknown_codes body))
                  bodies) acc.
Proof.
  revert bodies msgs. induction lines as [|line lines IH]; intros bodies msgs D acc.
  - apply decoded_nil in D as [-> ->]. reflexivity.
  - apply decoded_cons in D
      as (pre & body & bodies' & tid & ot & msgs' & -> & -> & _ & D).
    cbn [flat_map]. rewrite filter_app, !fold_left_app, extra_keys_of_record.
    rewrite first_seen_absorb, fold_left_app. apply (IH _ _ D).
Qed.

Lemma extra_columns_decoded (lines bodies : list string) (msgs : list dict) :
  decoded lines bodies msgs ->
  extra_columns msgs schema_names
  = first_seen (flat_map (fun body => "Unknown Tags"
                                      :: map unknown_column (unknown_codes body))
                         bodies).
Proof.
  intros D. unfold extra_columns. change (fun col => negb (mem col schema_names))
    with is_extra.
  rewrite DataFrame_columns_first_seen. unfold first_seen.
  rewrite filter_first_seen. apply (extra_keys_of_batch _ _ _ D).
Qed.

Lemma filter_not_tags_columns (codes : list string) :
  filter (fun y => negb (y =? "Unknown Tags")) (map unknown_column codes)
  = map unknown_column codes.
Proof.
  induction codes as [|c codes IH]; [reflexivity|].
  cbn [map filter]. rewrite IH.
  destruct (String.eqb_spec (unknown_column c) "Unknown Tags") as [E|_].
  - now apply unknown_column_not_tags in E.
  - reflexivity.
Qed.

Lemma filter_not_tags_batch (bodies : list string) :
  filter (fun y => negb (y =? "Unknown Tags"))
         (flat_map (fun body => "Unknown Tags"
                                :: map unknown_column (unknown_codes body))
                   bodies)
  = map unknown_column (flat_map unknown_codes bodies).
Proof.
  induction bodies as [|b bodies IH]; [reflexivity|].
  cbn [flat_map]. rewrite map_app, <- IH.
  change (("Unknown Tags" :: ?x) ++ ?y)%list with ("Unknown Tags" :: x ++ y)%list.
  cbn [filter String.eqb Ascii.eqb Bool.eqb negb].
  now rewrite filter_app, filter_not_tags_columns.
Qed.

Lemma first_seen_batch (body : string) (bodies : list string) :
  first_seen (flat_map (fun body => "Unknown Tags"
                                    :: map unknown_column (unknown_codes body))
                       (body :: bodies))
  = "Unknown Tags"
    :: map unknown_column (first_seen (flat_map unknown_codes (body :: bodies))).
Proof.
  unfold first_seen at 1.
  change (flat_map ?f (body :: bodies)) with (f body ++ flat_map f bodies)%list at 1.
  cbn beta. change (("Unknown Tags" :: ?x) ++ ?y)%list
    with ("Unknown Tags" :: x ++ y)%list.
  cbn [fold_left]. change (uniq_add [] "Unknown Tags") with ["Unknown Tags"].
  rewrite first_seen_head. f_equal.
  rewrite filter_app, filter_not_tags_columns, filter_not_tags_batch.
  rewrite <- map_app. unfold first_seen.
  apply (first_seen_map unknown_column _ [] unknown_column_inj).
Qed.

Lemma final_columns_decoded (lines bodies : list string) (msgs : list dict) :
  decoded lines bodies msgs ->
  final_columns_order msgs
  = Ok (schema_names
        ++ match msgs with
           | [] => []
           | _ :: _ => ["Unknown Tags"]
           end
        ++ map unknown_column (first_seen (flat_map unknown_codes bodies)))%list.
Proof.
  intros D. unfold final_columns_order. rewrite ordered_columns_schema.
  cbn [bind]. rewrite (extra_columns_decoded _ _ _ D). do 2 f_equal.
  destruct lines as [|line lines].
  - apply decoded_nil in D as [-> ->]. reflexivity.
  - apply decoded_cons in D
      as (pre & body & bodies' & tid & ot & msgs' & -> & -> & _ & D).
    apply first_seen_batch.
Qed.

Lemma Ok_inj {A : Type} (a b : A) : Ok a = Ok b -> a = b.
Proof. intros E. now injection E. Qed.

Lemma NoDup_final_columns (msgs : list dict) (cols : list string) :
  final_columns_order msgs = Ok cols -> NoDup cols.
Proof.
  unfold final_columns_order. rewrite ordered_columns_schema. cbn [bind].
  intros E. apply Ok_inj in E. subst cols. apply NoDup_app.
  - exact NoDup_schema_names.
  - unfold extra_columns. apply NoDup_filter.
    rewrite DataFrame_columns_first_seen. apply NoDup_first_seen. constructor.
  - intros a Ha Hb. unfold extra_columns in Hb. apply filter_In in Hb as [_ Hb].
    apply mem_In in Ha. now rewrite Ha in Hb.
Qed.

(** C5, as stated: the columns would be the canonical ones followed by the
    unknown-tag columns and nothing else.  They are not: the one-record batch
    of the line [S | New]: 35=D|9999=z] also has the column
    ["Unknown Tags"]. *)
Lemma columns_schema_then_unknown_fails : ~ columns_schema_then_unknown.
Proof.
  intros H.
  specialize (H ["S | New]: 35=D|9999=z"] ["35=D|9999=z"]
                [[("Unknown Tags", VDict []); ("TID", VStr "Unknown TID");
                  ("Order Type", VStr "New"); ("35 MsgType", VStr "D");
                  ("Unknown Tag 9999", VStr "z")]]).
  assert (D : decoded ["S | New]: 35=D|9999=z"] ["35=D|9999=z"]
                [[("Unknown Tags", VDict []); ("TID", VStr "Unknown TID");
                  ("Order Type", VStr "New"); ("35 MsgType", VStr "D");
                  ("Unknown Tag 9999", VStr "z")]]).
  { split; repeat constructor. exists "S | New".
    split; [reflexivity | by_search]. }
  specialize (H D). vm_compute in H. discriminate.
Qed.

(** C5, amended: for the records of a batch of lines, the column sequence is
    the transactionId column, the classifier column and the other schema
    display names in declared order, then, when the batch is not empty, the
    column ["Unknown Tags"], then one column ["Unknown Tag <code>"] per
    unknown tag code in order of first appearance across the records; there
    is no other column and no column appears twice. *)
Theorem columns_schema_tags_then_unknown
  (lines bodies : list string) (msgs : list dict) :
  decoded lines bodies msgs ->
  exists cols,
    final_columns_order msgs = Ok cols /\
    cols = (schema_names
            ++ match msgs with
               | [] => []
               | _ :: _ => ["Unknown Tags"]
               end
            ++ map unknown_column
                 (first_seen (flat_map unknown_codes bodies)))%list /\
    NoDup cols.
Proof.
  intros D. pose proof (final_columns_decoded _ _ _ D) as E.
  eexists. split; [exact E|]. split; [reflexivity|].
  exact (NoDup_final_columns _ _ E).
Qed.

Lemma columns_schema_tags_then_unknown_witness :
  exists cols,
    final_columns_order
      [[("Unknown Tags", VDict []); ("TID", VStr "Unknown TID");
        ("Order Type", VStr "New"); ("35 MsgType", VStr "D");
        ("Unknown Tag 9999", VStr "z")]] = Ok cols /\
    cols = (schema_names ++ ["Unknown Tags"]
            ++ map unknown_column
                 (first_seen (flat_map unknown_codes ["35=D|9999=z"])))%list /\
    NoDup cols.
Proof.
  apply (columns_schema_tags_then_unknown ["S | New]: 35=D|9999=z"]
           ["35=D|9999=z"]).
  split; repeat constructor. exists "S | New".
  split; [reflexivity | by_search].
Defined.

(** ** The key ['Unknown Tags'] *)

Lemma schema_name_not_tags (k name : string) :
  get columns_mapping k = Some name -> name <> "Unknown Tags".
Proof.
  intros G E. apply schema_name_not_extra in G. now subst name.
Qed.

Lemma apply_field_tags (st : loop_state) (kv : string * string) :
  get (data (apply_field st kv)) "Unknown Tags" = get (data st) "Unknown Tags".
Proof.
  destruct kv as [k v]. unfold apply_field.
  destruct (get columns_mapping k) as [name|] eqn:G.
  - destruct (k =? "448"); [reflexivity|].
    destruct (k =? "447"); [reflexivity|].
    destruct (k =? "452"); [reflexivity|].
    apply get_set_other. exact (schema_name_not_tags _ _ G).
  - apply get_set_other, unknown_column_not_tags.
Qed.

Lemma fold_tags (fs : list (string * string)) (st : loop_state) :
  get (data (fold_left apply_field fs st)) "Unknown Tags"
  = get (data st) "Unknown Tags".
Proof.
  revert st. induction fs as [|kv fs IH]; intros st; [reflexivity|].
  cbn [fold_left]. now rewrite IH, apply_field_tags.
Qed.

Lemma attach_groups_tags (st : loop_state) :
  get (attach_groups st) "Unknown Tags" = get (data st) "Unknown Tags".
Proof.
  unfold attach_groups. destruct (partyIDs st); [reflexivity|].
  now rewrite !get_set_other by discriminate.
Qed.

Lemma parse_message_tags (line : string) (msg : dict) :
  parse_message line = Ok msg -> get msg "Unknown Tags" = Some (VDict []).
Proof.
  intros P. destruct (contains_dec separator line) as [C|N].
  - destruct (contains_splits _ C) as (pre & body & S).
    destruct (parse_message_split _ _ _ S) as (tid & ot & _ & E).
    rewrite E in P. apply Ok_inj in P. subst msg.
    now rewrite attach_groups_tags, fold_tags.
  - rewrite (parse_message_missing _ N) in P. discriminate.
Qed.

Lemma parsed_bodies (lines : list string) (msgs : list dict) :
  Forall2 (fun line msg => parse_message line = Ok msg) lines msgs ->
  exists bodies, decoded lines bodies msgs.
Proof.
  intros F. induction F as [|line msg lines msgs P F (bodies & B & _)].
  - exists []. split; constructor.
  - destruct (contains_dec separator line) as [C|N].
    + destruct (contains_splits _ C) as (pre & body & S).
      exists (body :: bodies). split; constructor; try assumption.
      now exists pre.
    + rewrite (parse_message_missing _ N) in P. discriminate.
Qed.

Lemma parsed_all_tags (lines : list string) (msgs : list dict) (msg : dict) :
  Forall2 (fun line msg => parse_message line = Ok msg) lines msgs ->
  In msg msgs -> get msg "Unknown Tags" = Some (VDict []).
Proof.
  intros F. induction F as [|line m lines msgs P F IH]; intros H; [elim H|].
  destruct H as [->|H]; [exact (parse_message_tags _ _ P) | now apply IH].
Qed.

(** C9: every record [parse_message] returns holds an empty mapping under
    ['Unknown Tags']; and the table of a non-empty batch has a column
    ["Unknown Tags"], after the canonical columns and before every
    ["Unknown Tag <code>"] column, whose cell is that empty mapping in every
    row, never a field value. *)
Theorem unknown_tags_key_and_column :
  (forall line msg,
      parse_message line = Ok msg ->
      get msg "Unknown Tags" = Some (VDict [])) /\
  (forall lines msgs,
      Forall2 (fun line msg => parse_message line = Ok msg) lines msgs ->
      msgs <> [] ->
      exists cols rows front back,
        save_to_excel msgs = Ok (cols, rows) /\
        cols = (front ++ "Unknown Tags" :: back)%list /\
        (forall code, ~ In (unknown_column code) front) /\
        ~ In "Unknown Tags" front /\ ~ In "Unknown Tags" back /\
        Forall (fun row => nth_error row (List.length front)
                           = Some (Some (VDict []))) rows).
Proof.
  split; [exact parse_message_tags|].
  intros lines msgs F NE. destruct (parsed_bodies _ _ F) as [bodies D].
  pose proof (final_columns_decoded _ _ _ D) as E.
  destruct msgs as [|msg0 msgs0]; [now elim NE|].
  unfold save_to_excel. rewrite E. cbn [bind].
  eexists. eexists. exists schema_names.
  exists (map unknown_column (first_seen (flat_map unknown_codes bodies))).
  split; [reflexivity|]. split; [reflexivity|]. split; [|split; [|split]].
  - intros code H. apply mem_In in H.
    pose proof (unknown_column_extra code) as X. unfold is_extra in X.
    now rewrite H in X.
  - apply mem_false. reflexivity.
  - intros H. apply in_map_iff in H as (c & H & _).
    now apply unknown_column_not_tags in H.
  - apply Forall_forall. intros row H. apply in_map_iff in H as (msg & <- & H).
    rewrite nth_error_map, nth_error_app2, Nat.sub_diag by lia. cbn.
    unfold cell. f_equal. exact (parsed_all_tags _ _ _ F H).
Qed.

Lemma unknown_tags_key_and_column_witness :
  get [("Unknown Tags", VDict []); ("TID", VStr "Unknown TID");
       ("Order Type", VStr "New"); ("35 MsgType", VStr "D");
       ("Unknown Tag 9999", VStr "z")] "Unknown Tags" = Some (VDict []) /\
  exists cols rows front back,
    save_to_excel [[("Unknown Tags", VDict []); ("TID", VStr "Unknown TID");
                    ("Order Type", VStr "New"); ("35 MsgType", VStr "D");
                    ("Unknown Tag 9999", VStr "z")]] = Ok (cols, rows) /\
    cols = (front ++ "Unknown Tags" :: back)%list /\
    (forall code, ~ In (unknown_column code) front) /\
    ~ In "Unknown Tags" front /\ ~ In "Unknown Tags" back /\
    Forall (fun row => nth_error row (List.length front)
                       = Some (Some (VDict []))) rows.
Proof.
  split.
  - apply (proj1 unknown_tags_key_and_column "S | New]: 35=D|9999=z").
    reflexivity.
  - apply (proj2 unknown_tags_key_and_column ["S | New]: 35=D|9999=z"]).
    + repeat constructor.
    + discriminate.
Defined.

(** ** The two preamble fields in the record

    ['TID'] and ['Order Type'] are keys of [columns_mapping] whose display
    name is the key itself, so the loop stores a body part with that tag code
    under the key the preamble value was stored under: the record holds the
    last such part when there is one, and the preamble value otherwise. *)

Lemma last_cons (v d : string) (l : list string) : last (v :: l) d = last l v.
Proof.
  revert v d. induction l as [|b l IH]; intros v d; [reflexivity|].
  change (last (v :: b :: l) d) with (last (b :: l) d).
  now rewrite (IH b d), (IH b v).
Qed.

Section PseudoField.
Variable code : string.
Hypothesis code_self : get columns_mapping code = Some code.
Hypothesis code_only :
  forallb (fun kv => implb (snd kv =? code) (fst kv =? code)) columns_mapping
  = true.
Hypothesis code_not_repeated : mem code ["448"; "447"; "452"] = false.
Hypothesis code_not_group : mem code group_names = false.
Hypothesis code_not_unknown : forall k, unknown_column k <> code.

Lemma apply_field_pseudo (st : loop_state) (k v : string) :
  get (data (apply_field st (k, v))) code
  = if k =? code then Some (VStr v) else get (data st) code.
Proof.
  unfold apply_field. destruct (String.eqb_spec k code) as [->|N].
  - rewrite code_self. cbn [mem] in code_not_repeated.
    apply orb_false_elim in code_not_repeated as [-> R].
    apply orb_false_elim in R as [-> R].
    apply orb_false_elim in R as [-> _].
    apply get_set_same.
  - destruct (get columns_mapping k) as [name|] eqn:G.
    + destruct (k =? "448"); [reflexivity|].
      destruct (k =? "447"); [reflexivity|].
      destruct (k =? "452"); [reflexivity|].
      apply get_set_other. intros ->. apply get_Some_In in G.
      pose proof (proj1 (forallb_forall _ _) code_only _ G) as I.
      cbn [fst snd] in I. rewrite String.eqb_refl in I.
      apply String.eqb_neq in N. now rewrite N in I.
    + apply get_set_other, code_not_unknown.
Qed.

Lemma fold_pseudo (fs : list (string * string)) (st : loop_state) (cur : string) :
  get (data st) code = Some (VStr cur) ->
  get (data (fold_left apply_field fs st)) code
  = Some (VStr (last (map snd (filter (fun kv => fst kv =? code) fs)) cur)).
Proof.
  revert st cur. induction fs as [|[k v] fs IH]; intros st cur H; [exact H|].
  cbn [fold_left filter fst]. destruct (k =? code) eqn:E.
  - cbn [map snd]. rewrite last_cons. apply IH.
    now rewrite apply_field_pseudo, E.
  - apply IH. now rewrite apply_field_pseudo, E.
Qed.

Lemma attach_groups_pseudo (st : loop_state) :
  get (attach_groups st) code = get (data st) code.
Proof.
  unfold attach_groups. destruct (partyIDs st); [reflexivity|].
  cbn [mem group_names] in code_not_group.
  apply orb_false_elim in code_not_group as [A R].
  apply orb_false_elim in R as [B R].
  apply orb_false_elim in R as [C _].
  apply String.eqb_neq in A, B, C.
  now rewrite !get_set_other by (apply not_eq_sym; assumption).
Qed.
End PseudoField.

(** X4: the record holds under ['TID'] and ['Order Type'] what the preamble
    gave, unless the body has a part with that very code: then it holds the
    value of the last such part. *)
Lemma record_preamble_fields (line pre body : string) :
  splits_as line pre body ->
  exists tid order_type msg,
    extract_preamble_details line = Ok (tid, order_type) /\
    parse_message line = Ok msg /\
    get msg "TID" = Some (VStr (last (values_of "TID" body) tid)) /\
    get msg "Order Type"
    = Some (VStr (last (values_of "Order Type" body) order_type)).
Proof.
  intros S. destruct (parse_message_split _ _ _ S) as (tid & ot & X & E).
  exists tid, ot. eexists. split; [exact X|]. split; [exact E|].
  unfold values_of. split.
  - rewrite attach_groups_pseudo by reflexivity.
    apply fold_pseudo; try reflexivity.
    intros k. unfold unknown_column. simpl. discriminate.
  - rewrite attach_groups_pseudo by reflexivity.
    apply fold_pseudo; try reflexivity.
    intros k. unfold unknown_column. simpl. discriminate.
Qed.

(** ** What [split] and [field_of] compute *)

Lemma no_bar_cons (a : ascii) (p : string) :
  ~ contains "|" (String a p) -> a <> "|"%char /\ ~ contains "|" p.
Proof.
  intros N. split.
  - intros ->. apply N. exists 0. now exists "", p.
  - intros [i H]. apply N. exists (S i). now apply occurs_at_S.
Qed.

Lemma prefix_bar (a : ascii) (s : string) :
  a <> "|"%char -> prefix "|" (String a s) = false.
Proof.
  intros N. destruct (prefix "|" (String a s)) eqn:P; [|reflexivity].
  apply prefix_iff in P as [t P]. simpl in P. injection P as P _. now elim N.
Qed.

Lemma split_go_part (p rest cur : string) :
  ~ contains "|" p ->
  split_go "|" p 0 cur = [cur ++ p] /\
  split_go "|" (p ++ "|" ++ rest) 0 cur
  = (cur ++ p) :: split_go "|" rest 0 "".
Proof.
  revert cur. induction p as [|a p IH]; intros cur N.
  - rewrite append_empty_r. split; [reflexivity|].
    change ("" ++ "|" ++ rest) with (String "|" rest). cbn [split_go].
    replace (prefix "|" (String "|" rest)) with true; [reflexivity|].
    symmetry. apply prefix_iff. now exists rest.
  - apply no_bar_cons in N as [Na N].
    destruct (IH (cur ++ String a "") N) as [H1 H2].
    rewrite append_assoc in H1, H2. split.
    + cbn [split_go]. now rewrite (prefix_bar _ _ Na).
    + change (String a p ++ "|" ++ rest) with (String a (p ++ "|" ++ rest)).
      cbn [split_go]. now rewrite (prefix_bar _ _ Na).
Qed.

(** Splitting the parts joined with ['|'] gives the parts back. *)
Lemma split_concat (part : string) (parts : list string) :
  Forall (fun p => ~ contains "|" p) (part :: parts) ->
  split (String.concat "|" (part :: parts)) "|" = part :: parts.
Proof.
  unfold split. revert part. induction parts as [|q parts IH]; intros part F.
  - apply Forall_cons_iff in F as [N _].
    exact (proj1 (split_go_part part "" "" N)).
  - apply Forall_cons_iff in F as [N F].
    change (String.concat "|" (part :: q :: parts))
      with (part ++ "|" ++ String.concat "|" (q :: parts)).
    rewrite (proj2 (split_go_part part _ "" N)).
    change ("" ++ part) with part. f_equal. exact (IH q F).
Qed.

Lemma take_append_le (n : nat) (a b : string) :
  n <= String.length a -> take n (a ++ b) = take n a.
Proof.
  revert a. induction n as [|n IH]; intros [|c a] H; simpl in *;
    try reflexivity; try lia.
  rewrite IH; [reflexivity | lia].
Qed.

Lemma occurs_at_append_l (sub a b : string) (j : nat) :
  occurs_at sub (a ++ b) j -> j + String.length sub <= String.length a ->
  occurs_at sub a j.
Proof.
  intros (x & y & E & L) B.
  assert (T : take (j + String.length sub) a = x ++ sub).
  { rewrite <- (take_append_le _ a b B), E, <- append_assoc, <- L,
      <- length_append. apply take_append. }
  exists x, (drop (j + String.length sub) a). split; [|exact L].
  rewrite <- append_assoc, <- T. symmetry. apply take_drop.
Qed.

(** A part [k=v] whose code has no ['='] is the field [(k, v)], and a part
    without ['='] is no field. *)
Lemma field_of_spec (k v : string) :
  ~ contains "=" k -> field_of (k ++ "=" ++ v) = Some (k, v).
Proof.
  intros N. unfold field_of.
  assert (F : first_at "=" (k ++ "=" ++ v) (String.length k)).
  { split; [lia|]. split.
    - now exists k, v.
    - intros j _ Lj H. apply N. exists j.
      apply (occurs_at_append_l _ _ _ _ H). simpl. lia. }
  apply index_of_Some in F. rewrite F, take_append. f_equal. f_equal.
  replace (String.length k + 1) with (String.length (k ++ "=")).
  - rewrite <- append_assoc. apply drop_append.
  - rewrite length_append. reflexivity.
Qed.

Lemma field_of_none (part : string) :
  ~ contains "=" part -> field_of part = None.
Proof. intros N. unfold field_of. apply index_of_None in N. now rewrite N. Qed.

(** The elements of [first_seen l] are those of [l], none twice, and the
    first of [l] comes first. *)
Lemma first_seen_spec (l : list string) :
  (forall x, In x (first_seen l) <-> In x l) /\ NoDup (first_seen l) /\
  (forall x l', l = x :: l' ->
                first_seen l
                = x :: first_seen (filter (fun y => negb (y =? x)) l')).
Proof.
  split; [|split].
  - intros x. unfold first_seen. rewrite In_uniq_add. simpl. tauto.
  - apply NoDup_first_seen. constructor.
  - intros x l' ->. unfold first_seen. cbn [fold_left].
    change (uniq_add [] x) with [x]. apply first_seen_head.
Qed.

(** ** Lines written from a preamble and a body *)

Lemma occurs_at_get (sub s : string) (j i : nat) :
  occurs_at sub s j -> i < String.length sub ->
  String.get (j + i) s = String.get i sub.
Proof.
  intros (a & b & -> & <-) Hi.
  rewrite (Nat.add_comm (String.length a) i), <- append_correct2.
  symmetry. now apply append_correct1.
Qed.

Lemma get_after (a b : string) :
  String.get (String.length a) (a ++ b) = String.get 0 b.
Proof. now rewrite (append_correct2 a b 0). Qed.

Lemma splits_of_clean_preamble (pre body : string) :
  ~ contains separator pre -> splits_as (pre ++ separator ++ body) pre body.
Proof.
  intros N. split; [reflexivity|]. split; [lia|].
  split; [now exists pre, body|]. intros j _ Lj H.
  destruct (Nat.le_gt_cases (j + 3) (String.length pre)) as [B|B].
  - apply N. exists j. exact (occurs_at_append_l _ _ _ _ H B).
  - assert (D : String.length pre - j = 1 \/ String.length pre - j = 2) by lia.
    pose proof (get_after pre (separator ++ body)) as G.
    destruct D as [D|D];
      [pose proof (occurs_at_get _ _ _ 1 H ltac:(simpl; lia)) as X
      |pose proof (occurs_at_get _ _ _ 2 H ltac:(simpl; lia)) as X];
      (replace (j + _) with (String.length pre) in X by lia);
      rewrite G in X; discriminate X.
Qed.

(** X1: a preamble that does not contain ["]: "] is what the split at the
    first separator gives back, whatever the body is (the body may contain
    the separator again): the line [pre ++ "]: " ++ body] splits as [pre] and
    [body], and the unpacking of [line.split(']: ', 1)] yields that pair. *)
Theorem clean_preamble_splits (pre body : string) :
  ~ contains separator pre ->
  splits_as (pre ++ separator ++ body) pre body /\
  unpack2 (split_once (pre ++ separator ++ body) "]: ") = Ok (pre, body).
Proof.
  intros N. pose proof (splits_of_clean_preamble pre body N) as S.
  split; [exact S | exact (unpack_split_line _ _ _ S)].
Qed.

Lemma clean_preamble_splits_witness :
  splits_as ("S(TID=1) | New" ++ separator ++ "58=a]: b|35=D")
            "S(TID=1) | New" "58=a]: b|35=D" /\
  unpack2 (split_once ("S(TID=1) | New" ++ separator ++ "58=a]: b|35=D") "]: ")
  = Ok ("S(TID=1) | New", "58=a]: b|35=D").
Proof.
  apply (clean_preamble_splits "S(TID=1) | New" "58=a]: b|35=D").
  apply index_of_None. reflexivity.
Defined.

(** X2: what [extract_preamble_details] returns depends on the preamble
    only: two lines with the same text before their first separator give the
    same pair, whatever their bodies. *)
Theorem extract_depends_on_preamble (line1 line2 pre body1 body2 : string) :
  splits_as line1 pre body1 -> splits_as line2 pre body2 ->
  extract_preamble_details line1 = extract_preamble_details line2.
Proof.
  intros S1 S2. now rewrite (extract_split _ _ _ S1), (extract_split _ _ _ S2).
Qed.

Lemma extract_depends_on_preamble_witness :
  extract_preamble_details "S(TID=1) | New]: 35=D|TID=a"
  = extract_preamble_details "S(TID=1) | New]: 35=8".
Proof.
  apply (extract_depends_on_preamble _ _ "S(TID=1) | New" "35=D|TID=a" "35=8");
    (split; [reflexivity | by_search]).
Defined.

Lemma strip_edges (s : string) :
  starts_nonspace (strip s) /\ ends_nonspace (strip s).
Proof.
  destruct (strip_trimmed s) as (_ & _ & _ & _ & _ & A & B). now split.
Qed.

(** X3: both strings [extract_preamble_details] returns are free of leading
    and trailing whitespace, the sentinels included. *)
Theorem extract_results_trimmed (line tid order_type : string) :
  extract_preamble_details line = Ok (tid, order_type) ->
  (starts_nonspace tid /\ ends_nonspace tid) /\
  (starts_nonspace order_type /\ ends_nonspace order_type).
Proof.
  intros E. destruct (contains_dec separator line) as [C|N].
  - destruct (contains_splits _ C) as (pre & body & S).
    rewrite (extract_split _ _ _ S) in E. apply Ok_inj in E.
    injection E as <- <-. split.
    + destruct (negb _); [apply strip_edges|].
      change "Unknown TID" with (strip "Unknown TID"). apply strip_edges.
    + destruct (negb (find pre "| " 0 =? -1)%Z); [apply strip_edges|].
      change "Unknown Order Type" with (strip "Unknown Order Type").
      apply strip_edges.
  - rewrite (extract_missing _ N) in E. discriminate.
Qed.

Lemma extract_results_trimmed_witness :
  (starts_nonspace "S(TID=1)" /\ ends_nonspace "S(TID=1)") /\
  (starts_nonspace "New" /\ ends_nonspace "New").
Proof.
  apply (extract_results_trimmed "  S(TID=1) |  New  ]: 35=D").
  reflexivity.
Defined.

Lemma record_preamble_fields_witness :
  exists tid order_type msg,
    extract_preamble_details "S(TID=1) | New]: TID=a|35=D|TID=b"
    = Ok (tid, order_type) /\
    parse_message "S(TID=1) | New]: TID=a|35=D|TID=b" = Ok msg /\
    get msg "TID"
    = Some (VStr (last (values_of "TID" "TID=a|35=D|TID=b") tid)) /\
    get msg "Order Type"
    = Some (VStr (last (values_of "Order Type" "TID=a|35=D|TID=b") order_type)).
Proof.
  apply (record_preamble_fields "S(TID=1) | New]: TID=a|35=D|TID=b"
           "S(TID=1) | New" "TID=a|35=D|TID=b").
  split; [reflexivity | by_search].
Defined.

(** ** Single-valued keys of the record *)

Lemma fold_slot (target : string) (hit : string -> bool) :
  (forall st k v,
      get (data (apply_field st (k, v))) target
      = if hit k then Some (VStr v) else get (data st) target) ->
  forall fs st,
    get (data (fold_left apply_field fs st)) target
    = match last_value (map snd (filter (fun kv => hit (fst kv)) fs)) with
      | Some v => Some v
      | None => get (data st) target
      end.
Proof.
  intros Step fs. induction fs as [|[k v] fs IH]; intros st; [reflexivity|].
  cbn [fold_left filter fst]. rewrite IH, Step.
  destruct (hit k); [|reflexivity].
  cbn [map snd last_value].
  destruct (map snd (filter (fun kv => hit (fst kv)) fs)) as [|w ws];
    [reflexivity|].
  cbn [last_value]. now rewrite last_cons.
Qed.

Lemma schema_names_unique :
  forallb (fun p => forallb (fun q => implb (snd p =? snd q) (fst p =? fst q))
                            columns_mapping) columns_mapping = true.
Proof. vm_compute. reflexivity. Qed.

Lemma schema_name_code (k k' name : string) :
  get columns_mapping k = Some name -> get columns_mapping k' = Some name ->
  k = k'.
Proof.
  intros G G'. apply get_Some_In in G, G'.
  pose proof (proj1 (forallb_forall _ _) schema_names_unique _ G) as H.
  pose proof (proj1 (forallb_forall _ _) H _ G') as I.
  cbn [fst snd] in I. rewrite String.eqb_refl in I. now apply String.eqb_eq in I.
Qed.

Lemma not_repeated (k : string) :
  mem k ["448"; "447"; "452"] = false ->
  (k =? "448") = false /\ (k =? "447") = false /\ (k =? "452") = false.
Proof.
  cbn [mem]. intros H. apply orb_false_elim in H as [A H].
  apply orb_false_elim in H as [B H]. apply orb_false_elim in H as [C _].
  now repeat split.
Qed.

Lemma apply_field_known (k name : string) (st : loop_state) (k' v : string) :
  get columns_mapping k = Some name ->
  mem k ["448"; "447"; "452"] = false ->
  get (data (apply_field st (k', v))) name
  = if k' =? k then Some (VStr v) else get (data st) name.
Proof.
  intros G R. unfold apply_field. destruct (String.eqb_spec k' k) as [->|N].
  - rewrite G. destruct (not_repeated _ R) as (-> & -> & ->).
    apply get_set_same.
  - destruct (get columns_mapping k') as [name'|] eqn:G'.
    + destruct (k' =? "448"); [reflexivity|].
      destruct (k' =? "447"); [reflexivity|].
      destruct (k' =? "452"); [reflexivity|].
      apply get_set_other. intros ->. apply N.
      exact (schema_name_code _ _ _ G' G).
    + apply get_set_other. intros E.
      pose proof (unknown_column_extra k') as X. rewrite E in X.
      now rewrite (schema_name_not_extra _ _ G) in X.
Qed.

Lemma apply_field_unknown (k : string) (st : loop_state) (k' v : string) :
  get columns_mapping k = None ->
  get (data (apply_field st (k', v))) (unknown_column k)
  = if k' =? k then Some (VStr v) else get (data st) (unknown_column k).
Proof.
  intros G. unfold apply_field. destruct (String.eqb_spec k' k) as [->|N].
  - rewrite G. apply get_set_same.
  - destruct (get columns_mapping k') as [name'|] eqn:G'.
    + destruct (k' =? "448"); [reflexivity|].
      destruct (k' =? "447"); [reflexivity|].
      destruct (k' =? "452"); [reflexivity|].
      apply get_set_other. intros E.
      pose proof (unknown_column_extra k) as X. rewrite <- E in X.
      now rewrite (schema_name_not_extra _ _ G') in X.
    + apply get_set_other. intros E. now apply N, unknown_column_inj.
Qed.

Lemma attach_groups_other (st : loop_state) (key : string) :
  ~ In key group_names -> get (attach_groups st) key = get (data st) key.
Proof.
  intros N. unfold attach_groups. destruct (partyIDs st); [reflexivity|].
  rewrite !get_set_other; [reflexivity| | |]; intros <-; apply N; simpl; tauto.
Qed.

Lemma known_name_not_group (k name : string) :
  get columns_mapping k = Some name ->
  mem k ["448"; "447"; "452"] = false -> ~ In name group_names.
Proof.
  intros G R Hin. apply get_Some_In in G.
  pose proof (proj1 (forallb_forall _ _) schema_groups _ G) as I.
  cbn [fst snd] in I. apply mem_In in Hin. now rewrite Hin, R in I.
Qed.

Lemma record_known_field (body tid order_type k name : string) :
  get columns_mapping k = Some name ->
  mem k ["448"; "447"; "452"] = false ->
  k <> "TID" -> k <> "Order Type" ->
  get (attach_groups
         (fold_left apply_field (fields_of body) (loop_init tid order_type)))
      name
  = last_value (values_of k body).
Proof.
  intros G R NT NO.
  rewrite (attach_groups_other _ _ (known_name_not_group _ _ G R)).
  rewrite (fold_slot name (fun k' => k' =? k)
             (fun st k' v => apply_field_known k name st k' v G R)).
  fold (values_of k body). destruct (last_value (values_of k body)); [reflexivity|].
  apply get_None_keys. cbn. intros [E|[E|[E|[]]]].
  - apply (schema_name_not_tags _ _ G). now symmetry.
  - apply NT. apply (schema_name_code _ _ _ G). now rewrite <- E.
  - apply NO. apply (schema_name_code _ _ _ G). now rewrite <- E.
Qed.

(** X5: a tag code of the schema that is not one of the three repeated codes
    nor one of the two preamble keys is stored under its display name with
    the value of its last occurrence in the body (an empty value included);
    without an occurrence the record has no such key. *)
Theorem known_field_last_wins (line pre body k name : string) :
  splits_as line pre body ->
  get columns_mapping k = Some name ->
  mem k ["448"; "447"; "452"] = false ->
  k <> "TID" -> k <> "Order Type" ->
  exists msg,
    parse_message line = Ok msg /\
    get msg name = last_value (values_of k body).
Proof.
  intros S G R NT NO. destruct (parse_message_split _ _ _ S) as (tid & ot & _ & E).
  eexists. split; [exact E|]. now apply record_known_field.
Qed.

Lemma known_field_last_wins_witness :
  exists msg,
    parse_message "S | New]: 44=1.5|55=X|44=|44=2.5" = Ok msg /\
    get msg "44 Price" = last_value (values_of "44" "44=1.5|55=X|44=|44=2.5").
Proof.
  apply (known_field_last_wins "S | New]: 44=1.5|55=X|44=|44=2.5" "S | New"
           "44=1.5|55=X|44=|44=2.5" "44" "44 Price").
  - split; [reflexivity | by_search].
  - reflexivity.
  - reflexivity.
  - discriminate.
  - discriminate.
Defined.

Lemma unknown_column_not_schema (k : string) :
  ~ In (unknown_column k) schema_names.
Proof.
  apply mem_false. pose proof (unknown_column_extra k) as X.
  unfold is_extra in X. now destruct (mem (unknown_column k) schema_names).
Qed.

Lemma record_unknown_field (body tid order_type k : string) :
  get columns_mapping k = None ->
  get (attach_groups
         (fold_left apply_field (fields_of body) (loop_init tid order_type)))
      (unknown_column k)
  = last_value (values_of k body).
Proof.
  intros G. rewrite attach_groups_other.
  - rewrite (fold_slot (unknown_column k) (fun k' => k' =? k)
               (fun st k' v => apply_field_unknown k st k' v G)).
    fold (values_of k body).
    destruct (last_value (values_of k body)); [reflexivity|].
    apply get_None_keys. cbn. intros [E'|[E'|[E'|[]]]].
    + symmetry in E'. exact (unknown_column_not_tags _ E').
    + discriminate E'.
    + discriminate E'.
  - intros Hin. unfold unknown_column in Hin. simpl in Hin.
    intuition discriminate.
Qed.

(** X6: a tag code that is not a key of the schema is stored under
    ["Unknown Tag <code>"] with the value of its last occurrence in the body;
    that key is never a canonical column name nor ['Unknown Tags']; without
    an occurrence the record has no such key. *)
Theorem unknown_tag_last_wins (line pre body k : string) :
  splits_as line pre body ->
  get columns_mapping k = None ->
  exists msg,
    parse_message line = Ok msg /\
    get msg ("Unknown Tag " ++ k) = last_value (values_of k body) /\
    ~ In ("Unknown Tag " ++ k) schema_names /\
    "Unknown Tag " ++ k <> "Unknown Tags".
Proof.
  intros S G. destruct (parse_message_split _ _ _ S) as (tid & ot & _ & E).
  eexists. split; [exact E|]. fold (unknown_column k).
  split; [now apply record_unknown_field|].
  split; [apply unknown_column_not_schema | apply unknown_column_not_tags].
Qed.

Lemma unknown_tag_last_wins_witness :
  exists msg,
    parse_message "S | New]: 9999=a|=x|9999=b=c" = Ok msg /\
    get msg ("Unknown Tag " ++ "9999")
    = last_value (values_of "9999" "9999=a|=x|9999=b=c") /\
    ~ In ("Unknown Tag " ++ "9999") schema_names /\
    "Unknown Tag " ++ "9999" <> "Unknown Tags".
Proof.
  apply (unknown_tag_last_wins "S | New]: 9999=a|=x|9999=b=c" "S | New"
           "9999=a|=x|9999=b=c" "9999").
  - split; [reflexivity | by_search].
  - reflexivity.
Defined.

(** ** Bodies written from fields and read back *)

Lemma contains_char_append (sub a b : string) :
  String.length sub = 1 ->
  contains sub (a ++ b) -> contains sub a \/ contains sub b.
Proof.
  intros L [j H]. destruct (Nat.lt_ge_cases j (String.length a)) as [B|B].
  - left. exists j. apply (occurs_at_append_l _ _ _ _ H). lia.
  - right. exists (j - String.length a).
    replace j with (String.length a + (j - String.length a)) in H by lia.
    apply occurs_at_drop in H; [|rewrite length_append; lia].
    now rewrite drop_append in H.
Qed.

Lemma plain_field_no_bar (kv : string * string) :
  plain_field kv -> ~ contains "|" (encode_field kv).
Proof.
  intros (_ & Nk & Nv) C. unfold encode_field in C.
  apply contains_char_append in C as [C|C]; [now apply Nk | | reflexivity].
  apply contains_char_append in C as [C|C]; [| now apply Nv | reflexivity].
  revert C. apply index_of_None. reflexivity.
Qed.

Lemma fields_of_parts (parts : list string) :
  Forall (fun p => ~ contains "|" p) parts ->
  fields_of (String.concat "|" parts)
  = flat_map (fun part => match field_of part with
                          | Some kv => [kv]
                          | None => []
                          end) parts.
Proof.
  intros F. unfold fields_of. destruct parts as [|p parts]; [reflexivity|].
  now rewrite split_concat.
Qed.

Lemma fields_of_encode (fields : list (string * string)) :
  Forall plain_field fields -> fields_of (encode_body fields) = fields.
Proof.
  intros F. unfold encode_body. rewrite fields_of_parts.
  - induction F as [|[k v] fields (Nk & _) F IH]; [reflexivity|].
    cbn [map flat_map]. unfold encode_field at 1. cbn [fst snd] in *.
    now rewrite (field_of_spec k v Nk), IH.
  - apply Forall_map. revert F. apply Forall_impl. exact plain_field_no_bar.
Qed.

(** X7: writing fields as [code=value] parts joined with ['|'] after a
    preamble and decoding the line reads them back verbatim, when no code
    contains ['='] or ['|'] and no value contains ['|'] (a value may contain
    ['='], blanks or a line terminator): a single-valued known tag and an
    unknown tag hold the value of the last field with that code, and when a
    field has code 448 the three group keys hold the values of the fields
    with codes 448, 447 and 452 in order. *)
Theorem encoded_fields_decoded (pre : string) (fields : list (string * string)) :
  ~ contains separator pre ->
  Forall plain_field fields ->
  let given k := map snd (filter (fun kv => fst kv =? k) fields) in
  exists msg,
    parse_message (pre ++ separator ++ encode_body fields) = Ok msg /\
    (forall k name,
        get columns_mapping k = Some name ->
        mem k ["448"; "447"; "452"] = false ->
        k <> "TID" -> k <> "Order Type" ->
        get msg name = last_value (given k)) /\
    (forall k,
        get columns_mapping k = None ->
        get msg ("Unknown Tag " ++ k) = last_value (given k)) /\
    (given "448" <> [] ->
     get msg "448 PartyID" = Some (VList (given "448")) /\
     get msg "447 PartyIDSource" = Some (VList (given "447")) /\
     get msg "452 PartyRole" = Some (VList (given "452"))).
Proof.
  intros N F given.
  pose proof (splits_of_clean_preamble pre (encode_body fields) N) as S.
  destruct (parse_message_split _ _ _ S) as (tid & ot & _ & E).
  eexists. split; [exact E|].
  assert (V : forall k, values_of k (encode_body fields) = given k).
  { intros k. unfold values_of. now rewrite (fields_of_encode _ F). }
  split; [|split].
  - intros k name G R NT NO. rewrite <- V. now apply record_known_field.
  - intros k G. rewrite <- V. now apply record_unknown_field.
  - intros P.
    destruct (loop_sequences (encode_body fields) tid ot) as (P1 & P2 & P3).
    destruct (attach_groups_spec
                (fold_left apply_field (fields_of (encode_body fields))
                           (loop_init tid ot))) as [A _].
    rewrite P1, P2, P3, !V in A. now apply A.
Qed.

Lemma encoded_fields_decoded_witness :
  let fields := [("35", "D"); ("448", "A"); ("58", "a=b c"); ("9999", "z");
                 ("452", "1"); ("35", "8" ++ nl)] in
  let given k := map snd (filter (fun kv => fst kv =? k) fields) in
  exists msg,
    parse_message ("S | New" ++ separator ++ encode_body fields) = Ok msg /\
    (forall k name,
        get columns_mapping k = Some name ->
        mem k ["448"; "447"; "452"] = false ->
        k <> "TID" -> k <> "Order Type" ->
        get msg name = last_value (given k)) /\
    (forall k,
        get columns_mapping k = None ->
        get msg ("Unknown Tag " ++ k) = last_value (given k)) /\
    (given "448" <> [] ->
     get msg "448 PartyID" = Some (VList (given "448")) /\
     get msg "447 PartyIDSource" = Some (VList (given "447")) /\
     get msg "452 PartyRole" = Some (VList (given "452"))).
Proof.
  apply (encoded_fields_decoded "S | New").
  - apply index_of_None. reflexivity.
  - repeat constructor; cbn [fst snd]; apply index_of_None; reflexivity.
Defined.

(** ** Parts without ['='] *)

Lemma field_of_str_in (part : string) :
  str_in "=" part = false -> field_of part = None.
Proof.
  unfold str_in, field_of. now destruct (index_of "=" part).
Qed.

Lemma fields_skip_parts (parts : list string) :
  flat_map (fun part => match field_of part with
                        | Some kv => [kv]
                        | None => []
                        end) (filter (str_in "=") parts)
  = flat_map (fun part => match field_of part with
                          | Some kv => [kv]
                          | None => []
                          end) parts.
Proof.
  induction parts as [|p parts IH]; [reflexivity|].
  cbn [filter flat_map]. destruct (str_in "=" p) eqn:E.
  - cbn [flat_map]. now rewrite IH.
  - now rewrite (field_of_str_in _ E), IH.
Qed.

(** X8: parts of the body without ['='] (empty parts left by doubled or
    trailing delimiters included) change nothing: the line decodes to the
    same record as the line written without them. *)
Theorem parts_without_equals_skipped (pre : string) (parts : list string) :
  ~ contains separator pre ->
  Forall (fun p => ~ contains "|" p) parts ->
  parse_message (pre ++ separator ++ String.concat "|" parts)
  = parse_message
      (pre ++ separator ++ String.concat "|" (filter (str_in "=") parts)).
Proof.
  intros N F.
  pose proof (splits_of_clean_preamble pre (String.concat "|" parts) N) as S1.
  pose proof (splits_of_clean_preamble pre
                (String.concat "|" (filter (str_in "=") parts)) N) as S2.
  destruct (parse_message_split _ _ _ S1) as (tid1 & ot1 & X1 & E1).
  destruct (parse_message_split _ _ _ S2) as (tid2 & ot2 & X2 & E2).
  rewrite (extract_split _ _ _ S1) in X1. rewrite (extract_split _ _ _ S2) in X2.
  rewrite X2 in X1.
  apply Ok_inj in X1. injection X1 as -> ->.
  rewrite E1, E2, !fields_of_parts, fields_skip_parts; [reflexivity | | exact F].
  apply Forall_forall. intros p H. apply filter_In in H as [H _].
  exact (proj1 (Forall_forall _ _) F p H).
Qed.

Lemma parts_without_equals_skipped_witness :
  parse_message ("S | New" ++ separator
                 ++ String.concat "|" ["35=D"; ""; "junk"; "55=X"; nl])
  = parse_message
      ("S | New" ++ separator
       ++ String.concat "|"
            (filter (str_in "=") ["35=D"; ""; "junk"; "55=X"; nl])).
Proof.
  apply (parts_without_equals_skipped "S | New").
  - apply index_of_None. reflexivity.
  - repeat constructor; apply index_of_None; reflexivity.
Defined.

(** ** The keys of a record *)

Lemma uniq_add_extends (l acc : list string) :
  exists more, fold_left uniq_add l acc = (acc ++ more)%list.
Proof.
  revert acc. induction l as [|x l IH]; intros acc.
  - exists []. now rewrite app_nil_r.
  - cbn [fold_left]. destruct (IH (uniq_add acc x)) as [more E]. rewrite E.
    unfold uniq_add. destruct (mem x acc).
    + now exists more.
    + exists (x :: more). now rewrite <- app_assoc.
Qed.

(** X9: a record returned by [parse_message] has no key twice, and its first
    three keys are ['Unknown Tags'], ['TID'] and ['Order Type'], in that
    order, whatever the body assigns. *)
Theorem record_keys (line : string) (msg : dict) :
  parse_message line = Ok msg ->
  NoDup (keys msg) /\
  exists more, keys msg = "Unknown Tags" :: "TID" :: "Order Type" :: more.
Proof.
  intros P. destruct (contains_dec separator line) as [C|N].
  - destruct (contains_splits _ C) as (pre & body & S).
    destruct (parse_message_split _ _ _ S) as (tid & ot & _ & E).
    rewrite E in P. apply Ok_inj in P. subst msg.
    rewrite keys_attach_groups, fold_keys, <- fold_left_app.
    change (keys (data (loop_init tid ot)))
      with ["Unknown Tags"; "TID"; "Order Type"].
    split.
    + apply NoDup_first_seen. apply nodupb_NoDup. reflexivity.
    + destruct (uniq_add_extends
                  (flat_map written_key (fields_of body)
                   ++ match partyIDs (fold_left apply_field (fields_of body)
                                         (loop_init tid ot)) with
                      | [] => []
                      | _ :: _ => group_names
                      end)
                  ["Unknown Tags"; "TID"; "Order Type"]) as [more X].
      exists more. now rewrite X.
  - rewrite (parse_message_missing _ N) in P. discriminate.
Qed.

Lemma record_keys_witness :
  NoDup (keys [("Unknown Tags", VDict []); ("TID", VStr "a");
               ("Order Type", VStr "New"); ("35 MsgType", VStr "8")]) /\
  exists more,
    keys [("Unknown Tags", VDict []); ("TID", VStr "a");
          ("Order Type", VStr "New"); ("35 MsgType", VStr "8")]
    = "Unknown Tags" :: "TID" :: "Order Type" :: more.
Proof.
  apply (record_keys "S | New]: 35=D|TID=a|35=8"). reflexivity.
Defined.

(** ** Batches *)

(** X10: processing two files one after the other is processing their
    concatenation: the records of the first followed by those of the second,
    and the first error met in that order. *)
Theorem process_file_app (file1 file2 : list string) :
  process_file (file1 ++ file2)
  = (msgs1 <- process_file file1 ;;
     msgs2 <- process_file file2 ;;
     Ok (msgs1 ++ msgs2)%list).
Proof.
  induction file1 as [|line rest IH].
  - cbn [app process_file bind]. now destruct (process_file file2).
  - change ((line :: rest) ++ file2)%list with (line :: rest ++ file2)%list.
    rewrite !process_file_cons. destruct (blank line); [exact IH|].
    destruct (parse_message line) as [msg|e]; [|reflexivity].
    cbn [bind]. rewrite IH.
    destruct (process_file rest) as [msgs1|e]; [|reflexivity].
    cbn [bind]. now destruct (process_file file2).
Qed.

(** X11: lines made of whitespace only (empty lines, lone line terminators)
    are not decoded: the file without them gives the same result, and a
    successful result has one record per remaining line. *)
Theorem process_file_skips_blank (file : list string) :
  process_file file = process_file (filter (fun l => negb (blank l)) file) /\
  (forall msgs,
      process_file file = Ok msgs ->
      List.length msgs
      = List.length (filter (fun l => negb (blank l)) file)).
Proof.
  split.
  - induction file as [|line rest IH]; [reflexivity|].
    rewrite process_file_cons. cbn [filter]. destruct (blank line) eqn:B.
    + exact IH.
    + cbn [negb]. rewrite process_file_cons, B. now rewrite IH.
  - induction file as [|line rest IH]; intros msgs.
    + intros E. apply Ok_inj in E. now subst msgs.
    + rewrite process_file_cons. cbn [filter]. destruct (blank line).
      * apply IH.
      * destruct (parse_message line) as [msg|e]; [|discriminate].
        cbn [bind negb]. destruct (process_file rest) as [msgs'|e];
          [|discriminate].
        cbn [bind]. intros E. apply Ok_inj in E. subst msgs.
        cbn [List.length]. f_equal. now apply IH.
Qed.

Lemma process_file_skips_blank_witness :
  List.length [[("Unknown Tags", VDict []); ("TID", VStr "Unknown TID");
                ("Order Type", VStr "Unknown Order Type");
                ("35 MsgType", VStr "D")]]
  = List.length (filter (fun l => negb (blank l)) [nl; "a]: 35=D"; "  " ++ nl]).
Proof.
  apply (proj2 (process_file_skips_blank [nl; "a]: 35=D"; "  " ++ nl])).
  reflexivity.
Defined.

(** ** The columns of arbitrary records *)

Lemma final_columns_unfold (msgs : list dict) :
  final_columns_order msgs
  = Ok (schema_names ++ filter is_extra (DataFrame_columns msgs))%list.
Proof.
  unfold final_columns_order. now rewrite ordered_columns_schema.
Qed.

Lemma In_DataFrame_columns (msgs : list dict) (c : string) :
  In c (DataFrame_columns msgs) <-> exists msg, In msg msgs /\ In c (keys msg).
Proof.
  rewrite DataFrame_columns_first_seen. unfold first_seen.
  rewrite In_uniq_add, in_flat_map. simpl. tauto.
Qed.

(** X12: for any list of records, the columns are the canonical ones
    followed by extra ones; a name is a column exactly when it is a
    canonical name or a key of some record, and no column appears twice. *)
Theorem final_columns_complete (msgs : list dict) :
  exists cols extra,
    final_columns_order msgs = Ok cols /\
    cols = (schema_names ++ extra)%list /\
    NoDup cols /\
    forall c, In c cols <->
              In c schema_names \/ exists msg, In msg msgs /\ In c (keys msg).
Proof.
  pose proof (final_columns_unfold msgs) as E.
  eexists. eexists. split; [exact E|]. split; [reflexivity|].
  split; [exact (NoDup_final_columns _ _ E)|].
  intros c. rewrite in_app_iff, filter_In, In_DataFrame_columns. split.
  - intros [H|[H _]]; [now left | now right].
  - intros [H|H]; [now left|].
    destruct (mem c schema_names) eqn:M.
    + left. now apply mem_In.
    + right. split; [exact H|]. unfold is_extra. now rewrite M.
Qed.

Lemma NoDup_app_disjoint (a b : list string) (x : string) :
  NoDup (a ++ b) -> In x a -> In x b -> False.
Proof.
  induction a as [|y a IH]; simpl; intros N Ha Hb; [exact Ha|].
  inversion N as [|? ? Ny N']; subst. destruct Ha as [->|Ha].
  - apply Ny, in_app_iff. now right.
  - now apply IH.
Qed.

(** X13: records added at the end of a batch only add columns at the end:
    the columns of the longer batch start with the columns of the shorter
    one, and the earlier records have no value under the added columns. *)
Theorem final_columns_extend (msgs more : list dict) (cols : list string) :
  final_columns_order msgs = Ok cols ->
  exists added,
    final_columns_order (msgs ++ more) = Ok (cols ++ added)%list /\
    forall c msg, In c added -> In msg msgs -> cell msg c = None.
Proof.
  rewrite !final_columns_unfold. intros E. apply Ok_inj in E. subst cols.
  assert (X : exists r, DataFrame_columns (msgs ++ more)
                        = (DataFrame_columns msgs ++ r)%list).
  { rewrite !DataFrame_columns_first_seen. unfold first_seen.
    rewrite flat_map_app, fold_left_app. apply uniq_add_extends. }
  destruct X as [r X]. exists (filter is_extra r). split.
  - now rewrite X, filter_app, app_assoc.
  - intros c msg Hc Hm. apply filter_In in Hc as [Hc _].
    unfold cell. apply get_None_keys. intros K.
    apply (NoDup_app_disjoint (DataFrame_columns msgs) r c).
    + rewrite <- X, DataFrame_columns_first_seen. apply NoDup_first_seen.
      constructor.
    + apply In_DataFrame_columns. now exists msg.
    + exact Hc.
Qed.

Lemma final_columns_extend_witness :
  exists added,
    final_columns_order
      ([[("Unknown Tags", VDict []); ("Unknown Tag 7", VStr "x")]]
       ++ [[("Unknown Tag 9", VStr "y"); ("Unknown Tag 7", VStr "z")]])
    = Ok ((schema_names ++ ["Unknown Tags"; "Unknown Tag 7"]) ++ added)%list /\
    forall c msg,
      In c added ->
      In msg [[("Unknown Tags", VDict []); ("Unknown Tag 7", VStr "x")]] ->
      cell msg c = None.
Proof.
  apply (final_columns_extend
           [[("Unknown Tags", VDict []); ("Unknown Tag 7", VStr "x")]]).
  reflexivity.
Defined.

(** ** The cells of a decoded batch *)

Lemma cell_at (cols : list string) (msg : dict) (c : string) :
  In c cols ->
  exists i, nth_error cols i = Some c /\
            nth_error (map (cell msg) cols) i = Some (cell msg c).
Proof.
  intros H. apply In_nth_error in H as [i H]. exists i.
  split; [exact H | now apply map_nth_error].
Qed.

Lemma decoded_records (lines bodies : list string) (msgs : list dict) :
  decoded lines bodies msgs ->
  Forall2 (fun body msg =>
             exists tid order_type,
               msg = attach_groups
                       (fold_left apply_field (fields_of body)
                                  (loop_init tid order_type)))
          bodies msgs.
Proof.
  revert bodies msgs. induction lines as [|line lines IH]; intros bodies msgs D.
  - apply decoded_nil in D as [-> ->]. constructor.
  - apply decoded_cons in D
      as (pre & body & bodies' & tid & ot & msgs' & -> & -> & _ & D).
    constructor; [now exists tid, ot | now apply IH].
Qed.

Lemma rows_cells (cols bodies : list string) (msgs : list dict) :
  (forall c, In c schema_names -> In c cols) ->
  Forall2 (fun body msg =>
             exists tid order_type,
               msg = attach_groups
                       (fold_left apply_field (fields_of body)
                                  (loop_init tid order_type)))
          bodies msgs ->
  Forall2
    (fun body row =>
       List.length row = List.length cols /\
       (forall k name,
           get columns_mapping k = Some name ->
           mem k ["448"; "447"; "452"] = false ->
           k <> "TID" -> k <> "Order Type" ->
           exists i, nth_error cols i = Some name /\
                     nth_error row i = Some (last_value (values_of k body))) /\
       (forall k,
           get columns_mapping k = None ->
           In (unknown_column k) cols ->
           exists i, nth_error cols i = Some (unknown_column k) /\
                     nth_error row i = Some (last_value (values_of k body))))
    bodies (map (fun msg => map (cell msg) cols) msgs).
Proof.
  intros Hs R.
  induction R as [|body msg bodies msgs (tid & ot & ->) R IH]; [constructor|].
  cbn [map]. constructor; [|exact IH]. split; [apply length_map|]. split.
  - intros k name G Rp NT NO.
    rewrite <- (record_known_field body tid ot k name G Rp NT NO).
    apply cell_at, Hs. apply get_Some_In in G. unfold schema_names.
    now apply (in_map snd) in G.
  - intros k G Hin. rewrite <- (record_unknown_field body tid ot k G).
    now apply cell_at.
Qed.

(** X14: the table of a decoded batch has one row per record and one cell
    per column in every row; in the row of a record, the cell under the
    display name of a single-valued known tag, and the cell under the column
    of an unknown tag that has one, hold the value of the last occurrence of
    the tag in the body of that record, and are missing when the body has no
    occurrence. *)
Theorem table_cells (lines bodies : list string) (msgs : list dict) :
  decoded lines bodies msgs ->
  exists cols rows,
    save_to_excel msgs = Ok (cols, rows) /\
    Forall2
      (fun body row =>
         List.length row = List.length cols /\
         (forall k name,
             get columns_mapping k = Some name ->
             mem k ["448"; "447"; "452"] = false ->
             k <> "TID" -> k <> "Order Type" ->
             exists i, nth_error cols i = Some name /\
                       nth_error row i = Some (last_value (values_of k body))) /\
         (forall k,
             get columns_mapping k = None ->
             In (unknown_column k) cols ->
             exists i, nth_error cols i = Some (unknown_column k) /\
                       nth_error row i = Some (last_value (values_of k body))))
      bodies rows.
Proof.
  intros D. unfold save_to_excel. rewrite final_columns_unfold. cbn [bind].
  eexists. eexists. split; [reflexivity|].
  apply rows_cells; [|exact (decoded_records _ _ _ D)].
  intros c H. apply in_app_iff. now left.
Qed.

Lemma table_cells_witness :
  exists cols rows,
    save_to_excel
      [[("Unknown Tags", VDict []); ("TID", VStr "Unknown TID");
        ("Order Type", VStr "New"); ("44 Price", VStr "2")];
       [("Unknown Tags", VDict []); ("TID", VStr "Unknown TID");
        ("Order Type", VStr "New"); ("Unknown Tag 9999", VStr "z")]]
    = Ok (cols, rows) /\
    Forall2
      (fun body row =>
         List.length row = List.length cols /\
         (forall k name,
             get columns_mapping k = Some name ->
             mem k ["448"; "447"; "452"] = false ->
             k <> "TID" -> k <> "Order Type" ->
             exists i, nth_error cols i = Some name /\
                       nth_error row i = Some (last_value (values_of k body))) /\
         (forall k,
             get columns_mapping k = None ->
             In (unknown_column k) cols ->
             exists i, nth_error cols i = Some (unknown_column k) /\
                       nth_error row i = Some (last_value (values_of k body))))
      ["44=1|44=2"; "9999=z"] rows.
Proof.
  apply (table_cells ["S | New]: 44=1|44=2"; "S | New]: 9999=z"]).
  split.
  - constructor; [exists "S | New"; split; [reflexivity | by_search]|].
    constructor; [exists "S | New"; split; [reflexivity | by_search]|].
    constructor.
  - constructor; [reflexivity|]. constructor; [reflexivity | constructor].
Defined.
